(** * The [read] builtin of [osh/builtin_misc.py]

    A shallow embedding of [_AppendParts], [ReadLineFromStdin] and
    [Read.Run], followed by the properties of the field assembler, the line
    reader and the orchestrator.  [History.Run] and [Help.Run] of the same
    file are embedded after them, each in a module of its own.

    Python [str] values (byte strings in Python 2) are [string]; Python lists
    are [list]; [parts], which [_AppendParts] mutates in place, is threaded
    through explicitly; the process state touched by [Read.Run] (descriptor 0,
    the terminal attributes, the variable store) is a record threaded through
    a small state-and-exception monad. *)

From Stdlib Require Import Ascii String List ZArith Lia Bool.
From Stdlib Require Import DecimalString.
From stdpp Require Import base gmap strings list.

Local Open Scope nat_scope.

(** ** Python string primitives *)

Definition len (s : string) : nat := String.length s.

(** [s[a:b]] for non-negative [a], [b]: out-of-range bounds are clamped and
    [a >= b] yields the empty string. *)
Definition slice (s : string) (a b : nat) : string :=
  String.substring a (b - a) s.

(** [s.endswith(suffix)] *)
Definition endswith (s suffix : string) : bool :=
  (len suffix <=? len s) &&
  String.eqb (String.substring (len s - len suffix) (len suffix) s) suffix.

(** [s[:-1]] *)
Definition drop_last (s : string) : string :=
  String.substring 0 (len s - 1) s.

(** [''.join(chars)] *)
Definition join (chars : list string) : string :=
  fold_right String.append EmptyString chars.

Definition NL : ascii := Ascii.ascii_of_nat 10.
Definition NUL : ascii := Ascii.ascii_of_nat 0.
Definition chr (c : ascii) : string := String c EmptyString.

(** ** Exceptions *)

Inductive exn : Type :=
| IndexError
| OSError.

Inductive result (A : Type) : Type :=
| Ok (a : A)
| Raise (e : exn).

Arguments Ok {A} a.
Arguments Raise {A} e.

(** ** Spans ([span_e] of runtime_asdl) *)

Inductive span_e : Type :=
| Black      (* content *)
| Delim      (* separator *)
| Backslash. (* escape *)

Definition span : Type := span_e * nat.

Definition span_e_eqb (a b : span_e) : bool :=
  match a, b with
  | Black, Black | Delim, Delim | Backslash, Backslash => true
  | _, _ => false
  end.

(** ** [_AppendParts] *)

(** [parts[-1] += x]: raises [IndexError] on an empty list. *)
Definition add_to_last (parts : list string) (x : string) : result (list string) :=
  match parts with
  | [] => Raise IndexError
  | _ :: _ => Ok (removelast parts ++ [List.last parts EmptyString +:+ x])
  end.

(** The variables live across the iterations of the [for] loop. *)
Record loop_state : Type := LoopState {
  start_index : nat;
  last_span_was_black : bool;
  join_next : bool;
  parts : list string
}.

(** The [if]/[elif] chain on the span type. *)
Definition dispatch_span (s : string) (st : loop_state) (sp : span)
  : result loop_state :=
  let '(span_type, end_index) := sp in
  let text := slice s (start_index st) end_index in
  match span_type with
  | Black =>
      if join_next st && negb (Nat.eqb (length (parts st)) 0) then
        match add_to_last (parts st) text with
        | Ok p => Ok (LoopState (start_index st) true false p)
        | Raise e => Raise e
        end
      else
        Ok (LoopState (start_index st) true (join_next st) (parts st ++ [text]))
  | Delim =>
      if join_next st then
        match add_to_last (parts st) text with
        | Ok p => Ok (LoopState (start_index st) false false p)
        | Raise e => Raise e
        end
      else
        Ok (LoopState (start_index st) false (join_next st) (parts st))
  | Backslash =>
      if last_span_was_black st then
        Ok (LoopState (start_index st) false true (parts st))
      else
        Ok (LoopState (start_index st) false (join_next st) (parts st))
  end.

(** One iteration of the loop body: the dispatch, the overflow cap, and the
    advance of [start_index]. *)
Definition loop_body (s : string) (max_results : nat) (st : loop_state) (sp : span)
  : result loop_state :=
  match dispatch_span s st sp with
  | Raise e => Raise e
  | Ok st1 =>
      let jn :=
        if negb (Nat.eqb max_results 0) && (max_results <=? length (parts st1))
        then true else join_next st1 in
      Ok (LoopState (snd sp) (last_span_was_black st1) jn (parts st1))
  end.

Fixpoint for_spans (s : string) (max_results : nat) (spans : list span)
  (st : loop_state) : result loop_state :=
  match spans with
  | [] => Ok st
  | sp :: rest =>
      match loop_body s max_results st sp with
      | Raise e => Raise e
      | Ok st' => for_spans s max_results rest st'
      end
  end.

(** [done] is computed from [spans[-1]] alone. *)
Definition compute_done (spans : list span) : bool :=
  match spans with
  | [] => true
  | _ :: _ =>
      let '(last_span_type, _) := List.last spans (Black, 0) in
      if span_e_eqb last_span_type Backslash then false else true
  end.

(** [max_results] is a count: [Read.Run] passes [len(names)] or 0. *)
Definition _AppendParts (s : string) (spans : list span) (max_results : nat)
  (join_next0 : bool) (parts0 : list string)
  : result (bool * bool * list string) :=
  match for_spans s max_results spans (LoopState 0 false join_next0 parts0) with
  | Raise e => Raise e
  | Ok st => Ok (compute_done spans, join_next st, parts st)
  end.

(** ** The process state seen by [Read.Run] *)

(** What descriptor 0 will deliver: each [Data s] is a burst of bytes that one
    [posix.read] can return at most (a larger request gets a short read, a
    smaller one leaves the tail of the burst for the next call); [Data ""] is
    a read of zero bytes (an end-of-file indication); [Fail] makes the read
    raise [OSError].  An exhausted descriptor reads as end of file. *)
Inductive event : Type :=
| Data (s : string)
| Fail.

(** [termios.tcgetattr] returns
    [[iflag, oflag, cflag, lflag, ispeed, ospeed, cc]]. *)
Record termios_attrs : Type := Attrs {
  iflag : Z; oflag : Z; cflag : Z; lflag : Z;
  ispeed : Z; ospeed : Z; cc : list Z
}.

(** [termios.ICANON] (the Linux value). *)
Definition ICANON : Z := 2.

(** A shell variable holds a string or an array of strings. *)
Inductive value : Type :=
| Str (s : string)
| MaybeStrArray (strs : list string).

Record world : Type := World {
  stdin_fd : list event;
  stdin_isatty : bool;
  tty_attrs : termios_attrs;
  (* every attribute set applied by tcsetattr, most recent first *)
  tcsetattr_log : list termios_attrs;
  mem : gmap string value
}.

(** ** A state-and-exception monad with fuel for [while] loops

    [None] means that a loop ran out of fuel; the totality lemmas below show
    that the fuel each loop is started with is always enough. *)

Definition M (A : Type) : Type := world -> option (result A * world).

Definition ret {A} (a : A) : M A := fun w => Some (Ok a, w).
Definition raise {A} (e : exn) : M A := fun w => Some (Raise e, w).
Definition out_of_fuel {A} : M A := fun _ => None.

Definition bind {A B} (m : M A) (k : A -> M B) : M B := fun w =>
  match m w with
  | None => None
  | Some (Ok a, w') => k a w'
  | Some (Raise e, w') => Some (Raise e, w')
  end.

Notation "x <- m ;; k" := (bind m (fun x => k))
  (at level 100, m at next level, right associativity).
Notation "m ;;; k" := (bind m (fun _ => k))
  (at level 100, right associativity).

(** [try: body finally: fin] *)
Definition try_finally {A} (body : M A) (fin : M unit) : M A := fun w =>
  match body w with
  | None => None
  | Some (r, w') =>
      match fin w' with
      | None => None
      | Some (Ok _, w'') => Some (r, w'')
      | Some (Raise e, w'') => Some (Raise e, w'')
      end
  end.

Definition get_world : M world := fun w => Some (Ok w, w).

(** *** Operating-system primitives *)

Definition set_stdin (fd : list event) (w : world) : world :=
  World fd (stdin_isatty w) (tty_attrs w) (tcsetattr_log w) (mem w).

(** [posix.read(0, n)] *)
Definition posix_read (n : nat) : M string := fun w =>
  match stdin_fd w with
  | [] => Some (Ok EmptyString, w)
  | Fail :: rest => Some (Raise OSError, set_stdin rest w)
  | Data s :: rest =>
      if len s <=? n then Some (Ok s, set_stdin rest w)
      else Some (Ok (String.substring 0 n s),
                 set_stdin (Data (String.substring n (len s - n) s) :: rest) w)
  end.

(** [sys.stdin.isatty()] *)
Definition isatty : M bool := fun w => Some (Ok (stdin_isatty w), w).

(** [termios.tcgetattr(stdin)] *)
Definition tcgetattr : M termios_attrs := fun w => Some (Ok (tty_attrs w), w).

(** [termios.tcsetattr(stdin, termios.TCSANOW, attrs)] *)
Definition tcsetattr (attrs : termios_attrs) : M unit := fun w =>
  Some (Ok tt, World (stdin_fd w) (stdin_isatty w) attrs
                 (attrs :: tcsetattr_log w) (mem w)).

(** *** The variable store

    Modelled from the spec: [state.SetLocalString], [state.SetStringDynamic]
    and [state.SetArrayDynamic] live in core/state.py, which is not among the
    sources.  The spec gives the store as [setString(name, value)] and
    [setArray(name, sequence_of_strings)], an array binding replacing any
    prior value, with scope rules owned externally; the store is a finite map
    from names to values. *)
Definition set_var (name : string) (v : value) : M unit := fun w =>
  Some (Ok tt, World (stdin_fd w) (stdin_isatty w) (tty_attrs w)
                 (tcsetattr_log w) (<[name := v]> (mem w))).

Definition SetLocalString (name s : string) : M unit := set_var name (Str s).
Definition SetStringDynamic (name s : string) : M unit := set_var name (Str s).
Definition SetArrayDynamic (name : string) (strs : list string) : M unit :=
  set_var name (MaybeStrArray strs).

(** ** [ReadLineFromStdin] *)

(** [c == delim_char], where [delim_char] is [None] or a string. *)
Definition eq_delim (c : string) (delim_char : option string) : bool :=
  match delim_char with
  | Some d => String.eqb c d
  | None => false
  end.

Definition fd_size (fd : list event) : nat :=
  fold_right (fun e acc => match e with Data s => S (len s) | Fail => 1 end + acc) 0 fd.

Fixpoint read_line_loop (fuel : nat) (delim_char : option string)
  (chars : list string) : M string :=
  match fuel with
  | 0 => out_of_fuel
  | S fuel' =>
      c <- posix_read 1 ;;
      if String.eqb c EmptyString then ret (join chars)
      else if eq_delim c delim_char then ret (join chars)
      else
        let chars := chars ++ [c] in
        if String.eqb c (chr NL) then ret (join chars)
        else read_line_loop fuel' delim_char chars
  end.

Definition ReadLineFromStdin (delim_char : option string) : M string :=
  w <- get_world ;;
  read_line_loop (S (fd_size (stdin_fd w))) delim_char [].

(** ** [Read.Run] *)

(** The parsed flags ([arg] of [READ_SPEC.ParseCmdVal]); flag parsing itself
    belongs to frontend/args and is not modelled. *)
Record read_args : Type := ReadArgs {
  arg_r : bool;           (* -r *)
  arg_n : option Z;       (* -n N *)
  arg_a : option string;  (* -a ARRAY *)
  arg_d : option string   (* -d DELIM *)
}.

(** Truth value of an optional string: [None] and [''] are false. *)
Definition truthy (o : option string) : bool :=
  match o with
  | Some s => negb (String.eqb s EmptyString)
  | None => false
  end.

(** [while arg.n > 0: s += posix.read(stdin, 1); arg.n -= 1] *)
Fixpoint read_tty_loop (fuel : nat) (n : Z) (s : string) : M string :=
  if (0 <? n)%Z then
    match fuel with
    | 0 => out_of_fuel
    | S fuel' =>
        c <- posix_read 1 ;;
        read_tty_loop fuel' (n - 1)%Z (s +:+ c)
    end
  else ret s.

(** The [while] loop of the branch for a descriptor that is not a terminal. *)
Fixpoint read_block_loop (fuel : nat) (n : Z) (s : string) : M string :=
  if (0 <? n)%Z then
    match fuel with
    | 0 => out_of_fuel
    | S fuel' =>
        buf <- posix_read (Z.to_nat n) ;;
        if String.eqb buf EmptyString then ret s
        else read_block_loop fuel' (n - Z.of_nat (len buf))%Z (s +:+ buf)
    end
  else ret s.

(** [attrs[3] &= ~termios.ICANON] *)
Definition disable_canonical (attrs : termios_attrs) : termios_attrs :=
  Attrs (iflag attrs) (oflag attrs) (cflag attrs)
        (Z.land (lflag attrs) (Z.lnot ICANON))
        (ispeed attrs) (ospeed attrs) (cc attrs).

(** The branch [if arg.n is not None]. *)
Definition read_n_bytes (n : Z) (names : list string) : M Z :=
  let name := match names with
              | name0 :: _ => name0
              | [] => "REPLY"
              end in
  tty <- isatty ;;
  s <- (if tty then
          orig_attrs <- tcgetattr ;;
          attrs <- tcgetattr ;;
          let attrs := disable_canonical attrs in
          try_finally
            (tcsetattr attrs ;;;
             read_tty_loop (Z.to_nat n) n EmptyString)
            (tcsetattr orig_attrs)
        else
          read_block_loop (Z.to_nat n) n EmptyString) ;;
  SetLocalString name s ;;;
  ret 0%Z.

(** [for i in xrange(max_results)] with its [try]/[except IndexError]. *)
Fixpoint bind_names (names parts : list string) (range : list nat) : M unit :=
  match range with
  | [] => ret tt
  | i :: range' =>
      let s := match parts !! i with
               | Some p => p
               | None => EmptyString
               end in
      match names !! i with
      | Some name => SetStringDynamic name s ;;; bind_names names parts range'
      | None => raise IndexError
      end
  end.

Section Read.

(** [self.splitter.SplitForRead], the span classifier of osh/split.py. *)
Variable SplitForRead : string -> bool -> list span.

(** The [while True] loop; it returns [status] and [parts]. *)
Fixpoint read_lines (fuel : nat) (allow_escape : bool) (max_results : nat)
  (delim_char : option string) (join_next0 : bool) (parts0 : list string)
  : M (Z * list string) :=
  match fuel with
  | 0 => out_of_fuel
  | S fuel' =>
      line <- ReadLineFromStdin delim_char ;;
      if String.eqb line EmptyString then ret (1%Z, parts0)
      else
        let '(line, status) :=
          if endswith line (chr NL) then (drop_last line, 0%Z)
          else (line, 1%Z) in
        let spans := SplitForRead line allow_escape in
        match _AppendParts line spans max_results join_next0 parts0 with
        | Raise e => raise e
        | Ok (done, join_next1, parts1) =>
            if done then ret (status, parts1)
            else read_lines fuel' allow_escape max_results delim_char
                   join_next1 parts1
        end
  end.

Definition default_names (names : list string) : list string :=
  match names with
  | [] => ["REPLY"]
  | _ :: _ => names
  end.

Definition get_max_results (arg : read_args) (names : list string) : nat :=
  if truthy (arg_a arg) then 0 else length names.

Definition get_delim_char (arg : read_args) : option string :=
  match arg_d arg with
  | Some d => if 0 <? len d then Some (String.substring 0 1 d) else Some (chr NUL)
  | None => None
  end.

(** The loop started from [parts = []], [join_next = False]. *)
Definition read_fields (arg : read_args) (names : list string)
  : M (Z * list string) :=
  w <- get_world ;;
  read_lines (S (fd_size (stdin_fd w))) (negb (arg_r arg))
    (get_max_results arg names) (get_delim_char arg) false [].

Definition Run (arg : read_args) (argv_names : list string) : M Z :=
  match arg_n arg with
  | Some n => read_n_bytes n argv_names
  | None =>
      let names := default_names argv_names in
      let max_results := get_max_results arg names in
      sp <- read_fields arg names ;;
      let '(status, parts1) := sp in
      (if truthy (arg_a arg) then
         SetArrayDynamic (match arg_a arg with Some a => a | None => EmptyString end) parts1
       else
         bind_names names parts1 (seq 0 max_results)) ;;;
      ret status
  end.

End Read.

(** ** A span classifier

    Modelled from the spec: the Span Classifier ([SplitForRead] of
    osh/split.py, which is not among the sources) is given only by its
    interface, [split(line, stripEscapes)] returning an ordered sequence of
    [(kind, end_offset)] over the line.  This instance classifies every byte
    (a separator byte is Delimiter, a backslash is Escape when escapes are
    enabled, the byte after an Escape and every other byte is Content) and
    closes a span where the class changes.  The theorems below hold for any
    classifier; this one instantiates them. *)

Definition BACKSLASH : ascii := Ascii.ascii_of_nat 92.

Definition char_class (is_sep : ascii -> bool) (allow_escape escaped : bool)
  (c : ascii) : span_e :=
  if escaped then Black
  else if allow_escape && Ascii.eqb c BACKSLASH then Backslash
  else if is_sep c then Delim
  else Black.

Fixpoint split_from (is_sep : ascii -> bool) (allow_escape : bool)
  (cs : string) (i : nat) (cur : option span_e) : list span :=
  match cs with
  | EmptyString =>
      match cur with
      | Some k => [(k, i)]
      | None => []
      end
  | String c cs' =>
      let escaped := match cur with
                     | Some Backslash => true
                     | _ => false
                     end in
      let k := char_class is_sep allow_escape escaped c in
      match cur with
      | Some k0 =>
          if span_e_eqb k0 k then split_from is_sep allow_escape cs' (S i) (Some k)
          else (k0, i) :: split_from is_sep allow_escape cs' (S i) (Some k)
      | None => split_from is_sep allow_escape cs' (S i) (Some k)
      end
  end.

Definition split_model (is_sep : ascii -> bool) (line : string)
  (allow_escape : bool) : list span :=
  split_from is_sep allow_escape line 0 None.

(** The default IFS: space, tab, newline. *)
Definition ifs_default (c : ascii) : bool :=
  Ascii.eqb c (Ascii.ascii_of_nat 32) || Ascii.eqb c (Ascii.ascii_of_nat 9)
  || Ascii.eqb c NL.

(** IFS set to the single byte [sep]. *)
Definition ifs_char (sep : ascii) (c : ascii) : bool := Ascii.eqb c sep.

(** ** Initial states for examples *)

Definition attrs0 : termios_attrs := Attrs 17664 5 191 35387 15 15 [].

Definition pipe (fd : list event) : world := World fd false attrs0 [] ∅.
Definition terminal (fd : list event) : world := World fd true attrs0 [] ∅.

(** ** The [history] builtin

    [History.Run] works on the readline module, an external library: its
    history is a list of lines, [get_history_item] counts from 1 and returns
    [None] out of range, [remove_history_item] counts from 0 and raises
    [ValueError] out of range.  The output file [f] is the text written so
    far.  [int] and [repr] are the Python builtins, taken as parameters
    ([int] returns [None] where Python raises [ValueError]). *)

Module History.

Inductive exn : Type :=
| UsageError (msg : string).

(** How [Run] ends: it returns a status or raises. *)
Inductive outcome : Type :=
| Return (status : Z)
| Raise (e : exn).

Record state : Type := State {
  history : list string;
  f : string
}.

(** The parsed flags [-c] and [-d N]. *)
Record history_args : Type := HistoryArgs {
  arg_c : bool;
  arg_d : option Z
}.

(** ['%d' % z] and ['%5d' % z] *)
Definition fmt_d (z : Z) : string := NilZero.string_of_int (Z.to_int z).

Fixpoint spaces (n : nat) : string :=
  match n with
  | 0 => EmptyString
  | S n' => String (Ascii.ascii_of_nat 32) (spaces n')
  end.

Definition fmt_5d (z : Z) : string :=
  spaces (5 - len (fmt_d z)) +:+ fmt_d z.

(** ['%s' % item], where [item] may be [None] *)
Definition fmt_s (item : option string) : string :=
  match item with
  | Some s => s
  | None => "None"
  end.

(** [readline_mod.get_history_item(i)] *)
Definition get_history_item (h : list string) (i : Z) : option string :=
  if (1 <=? i)%Z then h !! Z.to_nat (i - 1) else None.

(** [readline_mod.remove_history_item(pos)]; [None] is [ValueError]. *)
Definition remove_history_item (h : list string) (pos : Z) : option (list string) :=
  if (0 <=? pos)%Z && (pos <? Z.of_nat (length h))%Z
  then Some (delete (Z.to_nat pos) h)
  else None.

(** [xrange(a, b)] *)
Definition xrange (a b : Z) : list Z :=
  map (fun j => (a + Z.of_nat j)%Z) (seq 0 (Z.to_nat (b - a))).

(** ['%5d  %s\n' % (i, item)] *)
Definition entry_line (i : Z) (item : option string) : string :=
  fmt_5d i +:+ "  " +:+ fmt_s item +:+ chr NL.

(** The [for] loop that writes the entries. *)
Definition write_entries (h : list string) (range : list Z) (out : string) : string :=
  fold_left (fun out i => out +:+ entry_line i (get_history_item h i)) range out.

(** Truth value of the optional integer [arg.d]. *)
Definition truthy_int (o : option Z) : bool :=
  match o with
  | Some z => negb (z =? 0)%Z
  | None => false
  end.

Section Run.

(** [int(arg0)] and [repr(arg0)] (as used by ['%r' % arg0]) *)
Variable py_int : string -> option Z.
Variable py_repr : string -> string.

(** [has_readline] tells whether [self.readline_mod] is set; [rest] is
    [cmd_val.argv[arg_index:]]. *)
Definition Run (has_readline : bool) (arg : history_args) (rest : list string)
  (st : state) : outcome * state :=
  if negb has_readline then
    (Raise (UsageError "OSH wasn't compiled with the readline module."), st)
  else if arg_c arg then
    (Return 0%Z, State [] (f st))
  else if truthy_int (arg_d arg) then
    let d := match arg_d arg with Some z => z | None => 0%Z end in
    let cmd_index := (d - 1)%Z in
    match remove_history_item (history st) cmd_index with
    | Some h' => (Return 0%Z, State h' (f st))
    | None => (Raise (UsageError ("couldn't find item " +:+ fmt_d d)), st)
    end
  else
    let num_items := Z.of_nat (length (history st)) in
    let start :=
      match rest with
      | [] => inl 1%Z
      | [arg0] =>
          match py_int arg0 with
          | Some num_to_show => inl (Z.max 1 (num_items + 1 - num_to_show))
          | None => inr (UsageError ("Invalid argument " +:+ py_repr arg0))
          end
      | _ :: _ :: _ => inr (UsageError "Too many arguments")
      end in
    match start with
    | inr e => (Raise e, st)
    | inl start_index =>
        (Return 0%Z,
         State (history st)
           (write_entries (history st) (xrange start_index (num_items + 1)) (f st)))
    end.

End Run.

End History.

(** ** The [help] builtin

    [self.loader.open(path)] either opens a file, whose whole content
    [f.read()] returns, or raises [IOError]: the loader is a partial map from
    paths to contents.  [help_index.GROUPS] and [runtime.NO_SPID] come from
    modules that are not among the sources and are parameters.  [print]
    appends its argument and a newline to the standard output;
    [errfmt.Print] is recorded with its format, its argument and the span
    it blames. *)

Module Help.

Record error_message : Type := ErrorMessage {
  err_fmt : string;
  err_arg : string;
  err_span : option Z
}.

Record state : Type := State {
  stdout : string;
  errors : list error_message
}.

Definition print (s : string) (st : state) : state :=
  State (stdout st +:+ s +:+ chr NL) (errors st).

Definition errfmt_Print (fmt arg : string) (span_id : option Z) (st : state) : state :=
  State (stdout st) (errors st ++ [ErrorMessage fmt arg span_id]).

Section Run.

Variable loader : string -> option string.
Variable GROUPS : list string.
Variable NO_SPID : Z.

(** The [for group in groups] loop, with its early [return 1]. *)
Fixpoint print_groups (groups : list string) (st : state) : Z * state :=
  match groups with
  | [] => (0%Z, st)
  | group :: groups' =>
      match loader ("_devbuild/help/_" +:+ group) with
      | None => (1%Z, errfmt_Print "Invalid help index group: %r" group None st)
      | Some content => print_groups groups' (print content st)
      end
  end.

Definition Run (argv : list string) (arg_spids : list Z) (st : state) : Z * state :=
  let '(topic, blame_spid) :=
    match argv !! 1, arg_spids !! 1 with
    | Some topic, Some spid => (topic, spid)
    | _, _ => ("help", NO_SPID)
    end in
  if String.eqb topic "index" then
    let groups := drop 2 argv in
    let groups := match groups with
                  | [] => GROUPS
                  | _ :: _ => groups
                  end in
    print_groups groups st
  else
    match loader ("_devbuild/help/" +:+ topic) with
    | None => (1%Z, errfmt_Print "no help topics match %r" topic (Some blame_spid) st)
    | Some content => (0%Z, print content st)
    end.

End Run.

End Help.

(** ** Vocabulary of the statements *)

(** [join_next] and [last_span_was_black] are set only while [parts] is
    non-empty. *)
Definition join_ok (st : loop_state) : Prop :=
  (join_next st = true -> parts st <> []) /\
  (last_span_was_black st = true -> parts st <> []).

(** The bound of the overflow cap. *)
Definition capped (k : nat) (st : loop_state) : Prop :=
  length (parts st) <= k /\ (length (parts st) = k -> join_next st = true).

(** The text that [spans] cover when the cursor stands at [start], escape
    bytes left out: what a join of every span appends. *)
Fixpoint covered_text (s : string) (start : nat) (spans : list span) : string :=
  match spans with
  | [] => EmptyString
  | (Backslash, e) :: rest => covered_text s e rest
  | (_, e) :: rest => slice s start e +:+ covered_text s e rest
  end.

(** The texts of the content spans, one per span. *)
Fixpoint black_texts (s : string) (start : nat) (spans : list span) : list string :=
  match spans with
  | [] => []
  | (Black, e) :: rest => slice s start e :: black_texts s e rest
  | (_, e) :: rest => black_texts s e rest
  end.

(** The cursor after [spans]. *)
Definition end_of (start : nat) (spans : list span) : nat :=
  match spans with
  | [] => start
  | _ :: _ => snd (List.last spans (Black, 0))
  end.

Definition is_backslash (sp : span) : bool := span_e_eqb (fst sp) Backslash.
Definition is_black (sp : span) : bool := span_e_eqb (fst sp) Black.

(** The number of content spans (tokens) and the absence of escapes. *)
Definition count_black (spans : list span) : nat :=
  length (List.filter is_black spans).

Definition escape_free (spans : list span) : bool :=
  forallb (fun sp => negb (is_backslash sp)) spans.

(** End offsets that do not go backwards. *)
Fixpoint ascending (start : nat) (spans : list span) : Prop :=
  match spans with
  | [] => True
  | (_, e) :: rest => start <= e /\ ascending e rest
  end.

(** The descriptor once the first byte of its leading burst [String c s] has
    been read. *)
Definition after_byte (s : string) (rest : list event) : list event :=
  match s with
  | EmptyString => rest
  | String _ _ => Data s :: rest
  end.

(** [reads fd pre fd']: reading the bytes of [pre] one at a time from [fd]
    succeeds and leaves [fd']. *)
Inductive reads : list event -> string -> list event -> Prop :=
| reads_done fd : reads fd EmptyString fd
| reads_byte c s rest pre fd' :
    reads (after_byte s rest) pre fd' ->
    reads (Data (String c s) :: rest) (String c pre) fd'.

(** The next read of [fd] returns zero bytes and leaves [fd']. *)
Inductive at_eof : list event -> list event -> Prop :=
| at_eof_exhausted : at_eof [] []
| at_eof_zero rest : at_eof (Data EmptyString :: rest) rest.

(** The byte [c] does not occur in [s]. *)
Fixpoint free_of (c : ascii) (s : string) : bool :=
  match s with
  | EmptyString => true
  | String x s' => negb (Ascii.eqb x c) && free_of c s'
  end.

(** Every byte the descriptor still holds. *)
Fixpoint fd_bytes (fd : list event) : string :=
  match fd with
  | [] => EmptyString
  | Data s :: rest => s +:+ fd_bytes rest
  | Fail :: rest => fd_bytes rest
  end.

Definition no_fail (fd : list event) : bool :=
  forallb (fun e => match e with Data _ => true | Fail => false end) fd.

(** The line handed to the classifier and the status of that line, as the
    body of the [while True] loop computes them. *)
Definition stripped (line : string) : string :=
  if endswith line (chr NL) then drop_last line else line.

Definition line_status (line : string) : Z :=
  if endswith line (chr NL) then 0%Z else 1%Z.

(** The states in which [Read.Run], started in [w0], stands at the top of its
    [while True] loop: the first time, and again after each line whose
    assembly returned [done = False]. *)
Inductive loop_head (SplitForRead : string -> bool -> list span)
  (allow_escape : bool) (k : nat) (delim : option string) (w0 : world)
  : bool -> list string -> world -> Prop :=
| head_first : loop_head SplitForRead allow_escape k delim w0 false [] w0
| head_next jn ps w line w' jn' ps' :
    loop_head SplitForRead allow_escape k delim w0 jn ps w ->
    ReadLineFromStdin delim w = Some (Ok line, w') ->
    line <> EmptyString ->
    _AppendParts (stripped line) (SplitForRead (stripped line) allow_escape) k jn ps
      = Ok (false, jn', ps') ->
    loop_head SplitForRead allow_escape k delim w0 jn' ps' w'.

Definition set_mem (m : gmap string value) (w : world) : world :=
  World (stdin_fd w) (stdin_isatty w) (tty_attrs w) (tcsetattr_log w) m.

(** [parts[i]], or [''] when [i] is out of range. *)
Definition part_or_empty (ps : list string) (i : nat) : string :=
  match ps !! i with
  | Some p => p
  | None => EmptyString
  end.

(** The store after the assignment to [names[i]]. *)
Definition bind_step (names ps : list string) (m : gmap string value) (i : nat)
  : gmap string value :=
  match names !! i with
  | Some name => <[name := Str (part_or_empty ps i)]> m
  | None => m
  end.

(** What the names hold after the binding loop over [names] and [ps]. *)
Definition names_bound (names ps : list string) (m0 m' : gmap string value) : Prop :=
  (forall i name p, names !! i = Some name ->
     (forall j, i < j -> names !! j <> Some name) ->
     ps !! i = Some p -> m' !! name = Some (Str p)) /\
  (forall i name, names !! i = Some name ->
     (forall j, i < j -> names !! j <> Some name) ->
     ps !! i = None -> m' !! name = Some (Str EmptyString)) /\
  (forall name, (forall j, names !! j <> Some name) -> m' !! name = m0 !! name).


(** How a returned line relates to the descriptor. *)
Definition line_outcome (delim : option string) (fd : list event)
  (line : string) (fd' : list event) : Prop :=
  (exists pre, line = pre +:+ chr NL /\ free_of NL pre = true /\
     eq_delim (chr NL) delim = false /\ reads fd line fd') \/
  (exists d, delim = Some (chr d) /\ free_of NL line = true /\
     free_of d line = true /\ reads fd (line +:+ chr d) fd') \/
  (free_of NL line = true /\ exists fd1, reads fd line fd1 /\ at_eof fd1 fd').

(** The entries of a history with their numbers, counted from [i]. *)
Fixpoint numbered_from (i : Z) (h : list string) : list (Z * string) :=
  match h with
  | [] => []
  | item :: h' => (i, item) :: numbered_from (i + 1) h'
  end.

(** The lines [history] writes for numbered entries. *)
Definition entry_lines (entries : list (Z * string)) : string :=
  join (map (fun p => History.entry_line (fst p) (Some (snd p))) entries).

(** The last [n] entries of [h] with their numbers, counted from 1; all of
    them when [n] exceeds their number, none when [n <= 0]. *)
Definition last_entries (n : Z) (h : list string) : list (Z * string) :=
  drop (length h - Z.to_nat n) (numbered_from 1 h).

(** What [help index] prints for the contents [cs] of the groups it loads. *)
Definition printed_groups (cs : list string) : string :=
  join (map (fun c => c +:+ chr NL) cs).

(** The groups [help index] walks through: its arguments, or all groups. *)
Definition index_groups (GROUPS gs : list string) : list string :=
  match gs with
  | [] => GROUPS
  | _ :: _ => gs
  end.

(** ** The field assembler *)

Lemma add_to_last_snoc l a x :
  add_to_last (l ++ [a]) x = Ok (l ++ [a +:+ x]).
Proof.
  unfold add_to_last. destruct (l ++ [a]) eqn:E.
  - destruct l; discriminate.
  - rewrite <- E, removelast_last, last_last. reflexivity.
Qed.

Lemma add_to_last_length ps x ps' :
  add_to_last ps x = Ok ps' -> length ps' = length ps /\ ps <> [].
Proof.
  destruct ps as [|p ps]; [discriminate|].
  destruct (exists_last (l := p :: ps)) as (l & a & ->); [discriminate|].
  rewrite add_to_last_snoc. intros [= <-]. split.
  - rewrite !length_app. reflexivity.
  - destruct l; discriminate.
Qed.

Lemma add_to_last_ok ps x :
  ps <> [] -> add_to_last ps x = Ok (removelast ps ++ [List.last ps EmptyString +:+ x]).
Proof. destruct ps; [congruence | reflexivity]. Qed.

Lemma snoc_not_nil {A} (l : list A) (a : A) : l ++ [a] <> [].
Proof. destruct l; discriminate. Qed.

Lemma dispatch_span_join_ok s st sp :
  join_ok st ->
  exists st1, dispatch_span s st sp = Ok st1 /\
    (join_next st1 = true -> parts st1 <> []) /\
    (last_span_was_black st1 = true -> parts st1 <> []).
Proof.
  intros [Hj Hb]. destruct sp as [[| |] e]; unfold dispatch_span.
  - destruct (join_next st) eqn:Ej; simpl.
    + destruct (parts st) as [|p ps] eqn:Ep; [now destruct (Hj eq_refl)|].
      cbn [length Nat.eqb negb].
      rewrite add_to_last_ok by discriminate.
      eexists; split; [reflexivity|].
      split; intros _; apply snoc_not_nil.
    + eexists; split; [reflexivity|].
      split; intros _; apply snoc_not_nil.
  - destruct (join_next st) eqn:Ej.
    + rewrite add_to_last_ok by auto.
      eexists; split; [reflexivity|].
      split; intros _; apply snoc_not_nil.
    + eexists; split; [reflexivity|]. split; simpl; [congruence | discriminate].
  - destruct (last_span_was_black st) eqn:Eb.
    + eexists; split; [reflexivity|]. split; simpl; [auto | discriminate].
    + eexists; split; [reflexivity|]. split; simpl; [auto | discriminate].
Qed.

Lemma loop_body_join_ok s k st sp :
  join_ok st -> exists st', loop_body s k st sp = Ok st' /\ join_ok st'.
Proof.
  intros H. destruct (dispatch_span_join_ok s st sp H) as (st1 & E & Hj & Hb).
  unfold loop_body. rewrite E. eexists; split; [reflexivity|].
  split; simpl; [|exact Hb].
  destruct (negb (k =? 0) && (k <=? length (parts st1))) eqn:Ec; [|exact Hj].
  intros _ Hnil. rewrite Hnil in Ec. destruct k; discriminate.
Qed.

Lemma for_spans_join_ok s k spans : forall st,
  join_ok st -> exists st', for_spans s k spans st = Ok st' /\ join_ok st'.
Proof.
  induction spans as [|sp spans IH]; intros st H; simpl.
  - eauto.
  - destruct (loop_body_join_ok s k st sp H) as (st1 & -> & H1). now apply IH.
Qed.

Lemma for_spans_app s k pre rest st :
  for_spans s k (pre ++ rest) st =
  match for_spans s k pre st with
  | Ok st1 => for_spans s k rest st1
  | Raise e => Raise e
  end.
Proof.
  revert st. induction pre as [|sp pre IH]; intros st; simpl; [reflexivity|].
  destruct (loop_body s k st sp); [apply IH | reflexivity].
Qed.

(** The only exception the loop can raise is [IndexError]. *)
Lemma for_spans_raise s k spans : forall st e,
  for_spans s k spans st = Raise e -> e = IndexError.
Proof.
  induction spans as [|sp spans IH]; intros st e; simpl; [discriminate|].
  destruct (loop_body s k st sp) as [st1|e1] eqn:E; [apply IH|].
  intros [= <-]. unfold loop_body in E.
  destruct (dispatch_span s st sp) as [st1|e2] eqn:E2; [discriminate|].
  injection E as <-. unfold dispatch_span in E2.
  destruct sp as [[| |] e0].
  - destruct (join_next st && negb (length (parts st) =? 0)); [|discriminate].
    destruct (parts st); simpl in E2; congruence.
  - destruct (join_next st); [|discriminate].
    destruct (parts st); simpl in E2; congruence.
  - destruct (last_span_was_black st); discriminate.
Qed.

Lemma compute_done_false spans :
  compute_done spans = false <-> exists pre e, spans = pre ++ [(Backslash, e)].
Proof.
  unfold compute_done. split.
  - destruct spans as [|sp0 spans0]; [discriminate|].
    destruct (exists_last (l := sp0 :: spans0)) as (pre & [k e] & ->); [discriminate|].
    rewrite last_last. destruct k; simpl; try discriminate.
    intros _. now exists pre, e.
  - intros (pre & e & ->). destruct (pre ++ [(Backslash, e)]) eqn:E.
    + destruct pre; discriminate.
    + rewrite <- E, last_last. reflexivity.
Qed.

(** C5: [_AppendParts] returns [done = False] exactly when [spans] is
    non-empty and its last span is a Backslash (escape) span, whatever the
    line, the other spans, [max_results], [join_next] and [parts] are, and
    [done = True] otherwise.  The call returns for every entry state; the one
    exception is the [IndexError] of [parts[-1]], which needs [join_next]
    true together with an empty [parts] on entry. *)
Theorem AppendParts_done_last_span s spans k jn ps :
  match _AppendParts s spans k jn ps with
  | Ok (done, _, _) =>
      (done = false <-> exists pre e, spans = pre ++ [(Backslash, e)]) /\
      (done = true <-> ~ exists pre e, spans = pre ++ [(Backslash, e)])
  | Raise e => e = IndexError /\ jn = true /\ ps = []
  end.
Proof.
  unfold _AppendParts.
  destruct (for_spans s k spans (LoopState 0 false jn ps)) as [st|e] eqn:E.
  - pose proof (compute_done_false spans) as H. split; [exact H|].
    destruct (compute_done spans); split; intros H1; try discriminate; auto.
    + intros H2. apply H in H2. discriminate.
    + exfalso. apply H1, H. reflexivity.
  - split; [eapply for_spans_raise; eassumption|].
    destruct jn, ps as [|p ps]; auto; exfalso.
    all: match type of E with
         | for_spans _ _ _ ?st0 = _ =>
             destruct (for_spans_join_ok s k spans st0) as (st & E' & _);
             [split; simpl; discriminate | congruence]
         end.
Qed.

(** C8: when [join_next] is false or [parts] is non-empty on entry,
    [_AppendParts] returns without raising, at every Delim span that finds
    [join_next] set the access [parts[-1]] is in bounds, and on return
    [join_next] is true only if [parts] is non-empty. *)
Theorem AppendParts_last_in_bounds s spans k jn ps :
  jn = false \/ ps <> [] ->
  (exists done jn' ps',
     _AppendParts s spans k jn ps = Ok (done, jn', ps') /\
     (jn' = true -> ps' <> [])) /\
  (forall pre e rest, spans = pre ++ (Delim, e) :: rest ->
     exists st, for_spans s k pre (LoopState 0 false jn ps) = Ok st /\
       (join_next st = true ->
          parts st <> [] /\
          exists ps', add_to_last (parts st) (slice s (start_index st) e) = Ok ps')).
Proof.
  intros Hin.
  assert (H0 : join_ok (LoopState 0 false jn ps)).
  { split; simpl; [|discriminate]. destruct Hin; congruence. }
  split.
  - destruct (for_spans_join_ok s k spans _ H0) as (st & E & Hj & _).
    unfold _AppendParts. rewrite E. eauto.
  - intros pre e rest ->.
    destruct (for_spans_join_ok s k pre _ H0) as (st & E & Hj & _).
    exists st. split; [exact E|]. intros Ht. split; [auto|].
    rewrite add_to_last_ok by auto. eauto.
Qed.

Lemma AppendParts_last_in_bounds_witness :
  exists done jn' ps',
    _AppendParts "a b" [(Black, 1); (Delim, 2); (Black, 3)] 1 false []
      = Ok (done, jn', ps') /\ (jn' = true -> ps' <> []).
Proof.
  apply (AppendParts_last_in_bounds "a b" [(Black, 1); (Delim, 2); (Black, 3)]
           1 false []).
  left. reflexivity.
Defined.

(** *** Overflow capping *)

Lemma str_app_cons (x : ascii) (a b : string) :
  String x a +:+ b = String x (a +:+ b).
Proof. reflexivity. Qed.

Lemma str_app_nil_l (a : string) : EmptyString +:+ a = a.
Proof. reflexivity. Qed.

Lemma str_app_assoc (a b c : string) : (a +:+ b) +:+ c = a +:+ (b +:+ c).
Proof.
  induction a as [|x a IH]; [reflexivity|].
  rewrite !str_app_cons. f_equal. exact IH.
Qed.

Lemma str_app_nil_r (a : string) : a +:+ EmptyString = a.
Proof.
  induction a as [|x a IH]; [reflexivity|].
  rewrite str_app_cons. f_equal. exact IH.
Qed.

Lemma len_app (a b : string) : len (a +:+ b) = len a + len b.
Proof.
  induction a as [|x a IH]; [reflexivity|].
  rewrite str_app_cons. unfold len in *. simpl. f_equal. exact IH.
Qed.

Lemma substring_nil n m : String.substring n m EmptyString = EmptyString.
Proof. destruct n, m; reflexivity. Qed.

Lemma substring_split s : forall a m1 m2,
  String.substring a (m1 + m2) s =
  String.substring a m1 s +:+ String.substring (a + m1) m2 s.
Proof.
  induction s as [|c s IH]; intros a m1 m2.
  - now rewrite !substring_nil.
  - destruct a as [|a].
    + destruct m1 as [|m1]; simpl.
      * destruct m2; reflexivity.
      * now rewrite IH.
    + simpl. apply IH.
Qed.

Lemma slice_split s a b c :
  a <= b -> b <= c -> slice s a b +:+ slice s b c = slice s a c.
Proof.
  intros Hab Hbc. unfold slice.
  replace (c - a) with ((b - a) + (c - b)) by lia.
  rewrite substring_split. now replace (a + (b - a)) with b by lia.
Qed.

Lemma slice_same s a : slice s a a = EmptyString.
Proof.
  unfold slice. rewrite Nat.sub_diag. revert a.
  induction s as [|c s IH]; intros [|a]; simpl; auto.
Qed.

Lemma loop_body_start s k st sp st' :
  loop_body s k st sp = Ok st' -> start_index st' = snd sp.
Proof.
  unfold loop_body. destruct (dispatch_span s st sp); [|discriminate].
  now intros [= <-].
Qed.

(** The cap bound is kept by one iteration. *)
Lemma loop_body_capped s k st sp :
  0 < k -> join_ok st -> capped k st ->
  exists st', loop_body s k st sp = Ok st' /\ join_ok st' /\ capped k st' /\
    length (parts st) <= length (parts st').
Proof.
  intros Hk Hok [Hle Hjn].
  destruct (loop_body_join_ok s k st sp Hok) as (st' & E & Hok').
  exists st'. split; [exact E|]. split; [exact Hok'|].
  unfold loop_body in E.
  destruct (dispatch_span s st sp) as [st1|] eqn:E1; [|discriminate].
  injection E as <-. cbn [parts join_next].
  assert (H1 : length (parts st) <= length (parts st1) <= k).
  { unfold dispatch_span in E1. destruct sp as [[| |] e].
    - destruct (join_next st) eqn:Ej; cbn [andb] in E1.
      + destruct (negb (length (parts st) =? 0)) eqn:En.
        * destruct (add_to_last (parts st) _) as [p1|] eqn:Ea; [|discriminate].
          injection E1 as <-. apply add_to_last_length in Ea as [Ea _].
          cbn [parts]. lia.
        * injection E1 as <-. cbn [parts]. rewrite length_app. simpl.
          apply negb_false_iff, Nat.eqb_eq in En. lia.
      + injection E1 as <-. cbn [parts]. rewrite length_app. simpl.
        assert (length (parts st) <> k) by (intros H; apply Hjn in H; congruence).
        lia.
    - destruct (join_next st) eqn:Ej.
      + destruct (add_to_last (parts st) _) as [p1|] eqn:Ea; [|discriminate].
        injection E1 as <-. apply add_to_last_length in Ea as [Ea _].
        cbn [parts]. lia.
      + injection E1 as <-. cbn [parts]. lia.
    - destruct (last_span_was_black st); injection E1 as <-; cbn [parts]; lia. }
  split; [|cbn [parts]; lia]. split; cbn [parts join_next]; [lia|]. intros Hk'.
  rewrite Hk'. rewrite Nat.leb_refl.
  destruct k; [lia | reflexivity].
Qed.

Lemma for_spans_capped s k spans : forall st,
  0 < k -> join_ok st -> capped k st ->
  exists st', for_spans s k spans st = Ok st' /\ join_ok st' /\ capped k st' /\
    length (parts st) <= length (parts st').
Proof.
  induction spans as [|sp spans IH]; intros st Hk Hok Hc; simpl.
  - exists st. auto.
  - destruct (loop_body_capped s k st sp Hk Hok Hc) as (st1 & -> & Hok1 & Hc1 & Hl1).
    destruct (IH st1 Hk Hok1 Hc1) as (st2 & E2 & Hok2 & Hc2 & Hl2).
    exists st2. repeat split; auto; try apply Hok2; try apply Hc2. lia.
Qed.

(** Once the cap is reached every further span is joined to the last part. *)
Lemma for_spans_full s k rest : forall st,
  0 < k -> length (parts st) = k -> join_next st = true ->
  exists st', for_spans s k rest st = Ok st' /\
    join_next st' = true /\ length (parts st') = k /\
    parts st' = removelast (parts st) ++
                [List.last (parts st) EmptyString +:+ covered_text s (start_index st) rest].
Proof.
  induction rest as [|[kind e] rest IH]; intros st Hk Hlen Hjn.
  - exists st. simpl. rewrite str_app_nil_r.
    rewrite <- app_removelast_last; [auto|].
    intros Hnil. rewrite Hnil in Hlen. simpl in Hlen. lia.
  - assert (Hne : parts st <> []).
    { intros Hnil. rewrite Hnil in Hlen. simpl in Hlen. lia. }
    destruct (exists_last Hne) as (l & a & Hp).
    assert (Hcap : forall n, n = k -> negb (k =? 0) && (k <=? n) = true).
    { intros n ->. rewrite Nat.leb_refl. destruct k; [lia | reflexivity]. }
    assert (Hnz : negb (length (parts st) =? 0) = true).
    { rewrite Hlen. destruct k; [lia | reflexivity]. }
    destruct kind.
    + (* Black *)
      cbn [for_spans]. unfold loop_body, dispatch_span.
      rewrite Hjn, Hnz. cbn [andb]. rewrite Hp, add_to_last_snoc.
      cbn [parts join_next last_span_was_black snd].
      rewrite Hcap by (rewrite length_app in *; rewrite Hp in Hlen;
                       rewrite length_app in Hlen; exact Hlen).
      edestruct (IH (LoopState e true true (l ++ [a +:+ slice s (start_index st) e])))
        as (st' & E & Hj' & Hl' & Hp'); [exact Hk | | reflexivity |].
      { cbn [parts]. rewrite Hp in Hlen. rewrite length_app in *. exact Hlen. }
      exists st'. split; [exact E|]. split; [exact Hj'|]. split; [exact Hl'|].
      rewrite Hp'. cbn [parts start_index covered_text].
      rewrite !removelast_last, !last_last, str_app_assoc. reflexivity.
    + (* Delim *)
      cbn [for_spans]. unfold loop_body, dispatch_span.
      rewrite Hjn. rewrite Hp, add_to_last_snoc.
      cbn [parts join_next last_span_was_black snd].
      rewrite Hcap by (rewrite length_app in *; rewrite Hp in Hlen;
                       rewrite length_app in Hlen; exact Hlen).
      edestruct (IH (LoopState e false true (l ++ [a +:+ slice s (start_index st) e])))
        as (st' & E & Hj' & Hl' & Hp'); [exact Hk | | reflexivity |].
      { cbn [parts]. rewrite Hp in Hlen. rewrite length_app in *. exact Hlen. }
      exists st'. split; [exact E|]. split; [exact Hj'|]. split; [exact Hl'|].
      rewrite Hp'. cbn [parts start_index covered_text].
      rewrite !removelast_last, !last_last, str_app_assoc. reflexivity.
    + (* Backslash *)
      cbn [for_spans]. unfold loop_body, dispatch_span.
      assert (E1 : (if last_span_was_black st
                    then Ok (LoopState (start_index st) false true (parts st))
                    else Ok (LoopState (start_index st) false (join_next st) (parts st)))
                   = Ok (LoopState (start_index st) false true (parts st))).
      { destruct (last_span_was_black st); [reflexivity | now rewrite Hjn]. }
      rewrite E1. cbn [parts join_next last_span_was_black snd].
      rewrite Hcap by exact Hlen.
      edestruct (IH (LoopState e false true (parts st)))
        as (st' & E & Hj' & Hl' & Hp'); [exact Hk | exact Hlen | reflexivity |].
      exists st'. split; [exact E|]. split; [exact Hj'|]. split; [exact Hl'|].
      rewrite Hp'. reflexivity.
Qed.

Lemma end_of_cons start sp rest : end_of start (sp :: rest) = end_of (snd sp) rest.
Proof. destruct rest; reflexivity. Qed.

Lemma end_of_app start pre sp rest :
  end_of start (pre ++ sp :: rest) = end_of (snd sp) rest.
Proof.
  revert start. induction pre as [|p pre IH]; intros start.
  - apply end_of_cons.
  - change ((p :: pre) ++ sp :: rest) with (p :: (pre ++ sp :: rest)).
    rewrite end_of_cons. apply IH.
Qed.

Lemma escape_free_done spans : escape_free spans = true -> compute_done spans = true.
Proof.
  intros H. destruct (compute_done spans) eqn:E; [reflexivity|].
  apply compute_done_false in E as (pre & e & ->).
  unfold escape_free in H. rewrite forallb_app in H.
  apply andb_true_iff in H as [_ H]. discriminate.
Qed.

(** Below the cap and without escapes every content span opens a part. *)
Lemma for_spans_below s k pre : forall st,
  escape_free pre = true -> join_next st = false ->
  length (parts st) + count_black pre < k ->
  exists b, for_spans s k pre st =
    Ok (LoopState (end_of (start_index st) pre) b false
          (parts st ++ black_texts s (start_index st) pre)).
Proof.
  induction pre as [|[kind e] pre IH]; intros st Hef Hjn Hlt.
  - exists (last_span_was_black st). simpl. rewrite app_nil_r.
    destruct st; simpl in *; now subst.
  - unfold escape_free in Hef. cbn [forallb] in Hef.
    apply andb_true_iff in Hef as [Hk Hef].
    rewrite end_of_cons. cbn [snd].
    destruct kind; [| |discriminate].
    + unfold count_black in Hlt. cbn [List.filter is_black fst span_e_eqb length] in Hlt.
      cbn [for_spans]. unfold loop_body, dispatch_span. rewrite Hjn. cbn [andb].
      cbn [parts join_next last_span_was_black snd].
      assert (Hc : negb (k =? 0) && (k <=? length (parts st ++ [slice s (start_index st) e]))
                   = false).
      { rewrite length_app. simpl. apply andb_false_iff. right.
        apply Nat.leb_gt. lia. }
      rewrite Hc.
      edestruct (IH (LoopState e true false (parts st ++ [slice s (start_index st) e])))
        as (b & E); [exact Hef | reflexivity | |].
      { cbn [parts]. rewrite length_app. simpl. unfold count_black. lia. }
      exists b. rewrite E. cbn [parts start_index black_texts].
      now rewrite <- app_assoc.
    + unfold count_black in Hlt. cbn [List.filter is_black fst span_e_eqb] in Hlt.
      cbn [for_spans]. unfold loop_body, dispatch_span. rewrite Hjn.
      cbn [parts join_next last_span_was_black snd].
      assert (Hc : negb (k =? 0) && (k <=? length (parts st)) = false).
      { apply andb_false_iff. right. apply Nat.leb_gt. lia. }
      rewrite Hc.
      edestruct (IH (LoopState e false false (parts st))) as (b & E);
        [exact Hef | reflexivity | |].
      { cbn [parts]. unfold count_black. lia. }
      exists b. rewrite E. reflexivity.
Qed.

Lemma ascending_end_of start spans : ascending start spans -> start <= end_of start spans.
Proof.
  revert start. induction spans as [|[k e] spans IH]; intros start H.
  - simpl. lia.
  - rewrite end_of_cons. destruct H as [H1 H2]. apply IH in H2. simpl in *. lia.
Qed.

Lemma ascending_app start pre rest :
  ascending start (pre ++ rest) -> ascending (end_of start pre) rest.
Proof.
  revert start. induction pre as [|[k e] pre IH]; intros start H.
  - exact H.
  - rewrite end_of_cons. destruct H as [_ H]. apply IH. exact H.
Qed.

Lemma covered_text_slice s spans : forall start,
  escape_free spans = true -> ascending start spans ->
  covered_text s start spans = slice s start (end_of start spans).
Proof.
  induction spans as [|[k e] spans IH]; intros start Hef Ha.
  - simpl. now rewrite slice_same.
  - unfold escape_free in Hef. cbn [forallb] in Hef.
    apply andb_true_iff in Hef as [Hk Hef]. destruct Ha as [H1 H2].
    rewrite end_of_cons. cbn [snd].
    pose proof (ascending_end_of e spans H2) as H3.
    destruct k; [| |discriminate]; cbn [covered_text];
      rewrite (IH e Hef H2); apply slice_split; assumption.
Qed.

Lemma black_texts_length s spans : forall start,
  length (black_texts s start spans) = count_black spans.
Proof.
  induction spans as [|[k e] spans IH]; intros start; [reflexivity|].
  destruct k; unfold count_black; cbn [black_texts List.filter is_black fst span_e_eqb length];
    rewrite IH; reflexivity.
Qed.

(** C3: with [max_results = k > 0], from an entry state within the cap (at
    most [k] parts, [join_next] set if there are [k], and [join_next] set
    only over a non-empty [parts]; the fresh state of [Read.Run] is one, and
    every return state is one again), after every prefix [pre] of the spans
    [parts] has at most [k] elements; once it has [k], [join_next] is true
    there and after every further span, the length stays [k], and the last
    part receives the text of all remaining spans, separators included.
    Hence an escape-free line whose [k]-th content span is [(Black, e)]
    yields exactly [k] parts: the first [k - 1] tokens, then the line from
    the start of the [k]-th token to the end of the last span. *)
Theorem AppendParts_overflow_cap s k :
  0 < k ->
  (forall jn ps pre rest,
     length ps <= k -> (length ps = k -> jn = true) -> (jn = true -> ps <> []) ->
     exists st1 st2,
       for_spans s k pre (LoopState 0 false jn ps) = Ok st1 /\
       for_spans s k rest st1 = Ok st2 /\
       _AppendParts s (pre ++ rest) k jn ps
         = Ok (compute_done (pre ++ rest), join_next st2, parts st2) /\
       length (parts st1) <= k /\
       capped k st2 /\ (join_next st2 = true -> parts st2 <> []) /\
       (length (parts st1) = k ->
          join_next st1 = true /\ join_next st2 = true /\
          length (parts st2) = k /\
          parts st2 = removelast (parts st1) ++
            [List.last (parts st1) EmptyString
               +:+ covered_text s (start_index st1) rest])) /\
  (forall pre e rest,
     escape_free (pre ++ (Black, e) :: rest) = true ->
     S (count_black pre) = k ->
     let final := covered_text s (end_of 0 pre) ((Black, e) :: rest) in
     _AppendParts s (pre ++ (Black, e) :: rest) k false []
       = Ok (true, true, black_texts s 0 pre ++ [final]) /\
     length (black_texts s 0 pre ++ [final]) = k /\
     (ascending 0 (pre ++ (Black, e) :: rest) ->
        final = slice s (end_of 0 pre) (end_of 0 (pre ++ (Black, e) :: rest)))).
Proof.
  intros Hk. split.
  - intros jn ps pre rest Hle Hfull Hne.
    assert (Hok : join_ok (LoopState 0 false jn ps)) by (split; simpl; [auto | discriminate]).
    assert (Hc : capped k (LoopState 0 false jn ps)) by (split; simpl; auto).
    destruct (for_spans_capped s k pre _ Hk Hok Hc) as (st1 & E1 & Hok1 & Hc1 & _).
    destruct (for_spans_capped s k rest _ Hk Hok1 Hc1) as (st2 & E2 & Hok2 & Hc2 & _).
    exists st1, st2. split; [exact E1|]. split; [exact E2|]. split.
    { unfold _AppendParts. now rewrite for_spans_app, E1, E2. }
    split; [apply Hc1|]. split; [exact Hc2|]. split; [apply Hok2|].
    intros Hlen. pose proof (proj2 Hc1 Hlen) as Hj1.
    destruct (for_spans_full s k rest st1 Hk Hlen Hj1) as (st2' & E2' & Hj2 & Hl2 & Hp2).
    rewrite E2 in E2'. injection E2' as <-. auto.
  - intros pre e rest Hef Hcount final.
    unfold escape_free in Hef. rewrite forallb_app in Hef.
    apply andb_true_iff in Hef as [Hpre Hrest].
    destruct (for_spans_below s k pre (LoopState 0 false false []) Hpre eq_refl)
      as (b & E1); [cbn [parts length]; lia|].
    cbn [parts start_index app] in E1.
    assert (Hlen : length (black_texts s 0 pre ++ [final]) = k).
    { rewrite length_app, black_texts_length. simpl. lia. }
    split; [|split; [exact Hlen|]].
    + unfold _AppendParts. rewrite for_spans_app, E1. cbn [for_spans].
      unfold loop_body, dispatch_span. cbn [join_next andb parts last_span_was_black snd].
      assert (Hc : negb (k =? 0) &&
                   (k <=? length (black_texts s 0 pre ++ [slice s (end_of 0 pre) e])) = true).
      { rewrite length_app, black_texts_length. simpl.
        replace (count_black pre + 1) with k by lia. rewrite Nat.leb_refl.
        destruct k; [lia | reflexivity]. }
      cbn [start_index]. rewrite Hc.
      edestruct (for_spans_full s k rest
                   (LoopState e true true (black_texts s 0 pre ++ [slice s (end_of 0 pre) e])))
        as (st2 & E2 & Hj2 & Hl2 & Hp2); [exact Hk | | reflexivity |].
      { cbn [parts]. rewrite length_app, black_texts_length. simpl. lia. }
      rewrite E2. rewrite escape_free_done.
      2:{ unfold escape_free. rewrite forallb_app. now rewrite Hpre, Hrest. }
      rewrite Hj2, Hp2. cbn [parts start_index].
      rewrite removelast_last, last_last. reflexivity.
    + intros Ha. unfold final.
      rewrite covered_text_slice; [| exact Hrest | now apply ascending_app].
      now rewrite end_of_cons, end_of_app.
Qed.

Lemma AppendParts_overflow_cap_witness :
  0 < 2 /\
  _AppendParts "x:y:z" [(Black, 1); (Delim, 2); (Black, 3); (Delim, 4); (Black, 5)]
    2 false [] = Ok (true, true, ["x"; "y:z"]).
Proof.
  split; [lia|].
  exact (proj1 (proj2 (AppendParts_overflow_cap "x:y:z" 2 ltac:(lia))
                  [(Black, 1); (Delim, 2)] 3 [(Delim, 4); (Black, 5)]
                  eq_refl eq_refl)).
Defined.

(** ** The line reader *)

Lemma substring_full s : String.substring 0 (len s) s = s.
Proof. induction s as [|c s IH]; [reflexivity|]. unfold len in *. simpl. now rewrite IH. Qed.

Lemma substring_0_0 s : String.substring 0 0 s = EmptyString.
Proof. destruct s; reflexivity. Qed.

Lemma posix_read1_byte c s rest w :
  stdin_fd w = Data (String c s) :: rest ->
  posix_read 1 w = Some (Ok (chr c), set_stdin (after_byte s rest) w).
Proof.
  intros H. unfold posix_read. rewrite H. destruct s as [|c2 s2].
  - reflexivity.
  - cbn [len String.length Nat.leb].
    change (String.substring 0 1 (String c (String c2 s2)))
      with (String c (String.substring 0 0 (String c2 s2))).
    change (String.substring 1 (S (S (String.length s2)) - 1) (String c (String c2 s2)))
      with (String.substring 0 (len (String c2 s2)) (String c2 s2)).
    now rewrite substring_full.
Qed.

(** The four ways a one-byte read can go. *)
Lemma posix_read1_inv w :
  (stdin_fd w = [] /\ posix_read 1 w = Some (Ok EmptyString, w)) \/
  (exists rest, stdin_fd w = Fail :: rest /\
     posix_read 1 w = Some (Raise OSError, set_stdin rest w)) \/
  (exists rest, stdin_fd w = Data EmptyString :: rest /\
     posix_read 1 w = Some (Ok EmptyString, set_stdin rest w)) \/
  (exists c s rest, stdin_fd w = Data (String c s) :: rest /\
     posix_read 1 w = Some (Ok (chr c), set_stdin (after_byte s rest) w)).
Proof.
  destruct (stdin_fd w) as [|[[|c s]|] rest] eqn:E.
  - left. unfold posix_read. now rewrite E.
  - right; right; left. exists rest. unfold posix_read. now rewrite E.
  - right; right; right. exists c, s, rest. split; [reflexivity|].
    now apply posix_read1_byte.
  - right; left. exists rest. unfold posix_read. now rewrite E.
Qed.

Ltac read1_cases w E :=
  let rest := fresh "rest" in
  let c := fresh "c" in
  let s := fresh "s" in
  destruct (posix_read1_inv w)
    as [[E ->]|[(rest & E & ->)|[(rest & E & ->)|(c & s & rest & E & ->)]]].

Lemma fd_size_after_byte c s rest :
  fd_size (after_byte s rest) < fd_size (Data (String c s) :: rest).
Proof. destruct s; unfold fd_size, len; simpl; lia. Qed.

Lemma stdin_set_stdin fd w : stdin_fd (set_stdin fd w) = fd.
Proof. reflexivity. Qed.

Lemma set_stdin_twice fd fd' w : set_stdin fd (set_stdin fd' w) = set_stdin fd w.
Proof. reflexivity. Qed.

Lemma set_stdin_same w : set_stdin (stdin_fd w) w = w.
Proof. destruct w; reflexivity. Qed.

Lemma join_snoc chars c : join (chars ++ [c]) = join chars +:+ c.
Proof.
  induction chars as [|x chars IH]; simpl.
  - now rewrite str_app_nil_r.
  - rewrite IH. now rewrite str_app_assoc.
Qed.

Lemma chr_eqb_nil c : String.eqb (chr c) EmptyString = false.
Proof. reflexivity. Qed.

Lemma chr_eqb c d : String.eqb (chr c) (chr d) = Ascii.eqb c d.
Proof. unfold chr. simpl. destruct (Ascii.eqb c d); reflexivity. Qed.

(** The loop returns whenever its fuel exceeds the size of the descriptor,
    only ever changes the descriptor, and never enlarges it. *)
Lemma read_line_loop_total delim : forall fuel chars w,
  fd_size (stdin_fd w) < fuel ->
  exists r fd', read_line_loop fuel delim chars w = Some (r, set_stdin fd' w) /\
    fd_size fd' <= fd_size (stdin_fd w) /\
    (forall line, r = Ok line -> line <> join chars -> fd_size fd' < fd_size (stdin_fd w)).
Proof.
  induction fuel as [|fuel IH]; intros chars w Hf; [lia|].
  cbn [read_line_loop]. unfold bind.
  read1_cases w E.
  - cbn. exists (Ok (join chars)), (stdin_fd w). rewrite set_stdin_same.
    split; [reflexivity|]. split; [lia|]. intros line [= <-] H. congruence.
  - exists (Raise OSError), rest. split; [reflexivity|]. rewrite E.
    split; [unfold fd_size; simpl; lia|]. discriminate.
  - cbn. exists (Ok (join chars)), rest. split; [reflexivity|]. rewrite E.
    split; [unfold fd_size; simpl; lia|]. intros line [= <-] H. congruence.
  - rewrite chr_eqb_nil. pose proof (fd_size_after_byte c s rest) as Hlt.
    rewrite <- E in Hlt.
    destruct (eq_delim (chr c) delim).
    { exists (Ok (join chars)), (after_byte s rest). split; [reflexivity|].
      split; [lia|]. intros _ _ _. exact Hlt. }
    destruct (String.eqb (chr c) (chr NL)).
    { exists (Ok (join (chars ++ [chr c]))), (after_byte s rest).
      split; [reflexivity|]. split; [lia|]. intros _ _ _. exact Hlt. }
    destruct (IH (chars ++ [chr c]) (set_stdin (after_byte s rest) w))
      as (r & fd' & Er & Hle & _).
    { rewrite stdin_set_stdin. lia. }
    rewrite stdin_set_stdin in Hle. rewrite set_stdin_twice in Er.
    exists r, fd'. split; [exact Er|]. split; [lia|]. intros _ _ _. lia.
Qed.

Lemma ReadLineFromStdin_total delim w :
  exists r fd', ReadLineFromStdin delim w = Some (r, set_stdin fd' w) /\
    fd_size fd' <= fd_size (stdin_fd w) /\
    (forall line, r = Ok line -> line <> EmptyString -> fd_size fd' < fd_size (stdin_fd w)).
Proof.
  unfold ReadLineFromStdin, bind, get_world.
  destruct (read_line_loop_total delim (S (fd_size (stdin_fd w))) [] w)
    as (r & fd' & E & Hle & Hlt); [lia|].
  exists r, fd'. auto.
Qed.

Lemma free_of_app c a b : free_of c (a +:+ b) = free_of c a && free_of c b.
Proof.
  induction a as [|x a IH]; [reflexivity|].
  rewrite str_app_cons. simpl. rewrite IH. now rewrite andb_assoc.
Qed.

Lemma free_of_chr c x : free_of c (chr x) = negb (Ascii.eqb x c).
Proof. simpl. now rewrite andb_true_r. Qed.

Lemma endswith_chr_chr c d : endswith (chr c) (chr d) = Ascii.eqb c d.
Proof. unfold endswith. simpl. destruct (Ascii.eqb c d); reflexivity. Qed.

Lemma endswith_cons c c2 s d :
  endswith (String c (String c2 s)) (chr d) = endswith (String c2 s) (chr d).
Proof.
  unfold endswith, len. cbn [String.length chr Nat.leb andb Nat.sub].
  rewrite Nat.sub_0_r. reflexivity.
Qed.

Lemma endswith_nil d : endswith EmptyString (chr d) = false.
Proof. reflexivity. Qed.

(** A string free of [d] does not end with [d]. *)
Lemma free_of_endswith d s : free_of d s = true -> endswith s (chr d) = false.
Proof.
  induction s as [|c s IH]; [reflexivity|].
  intros H. simpl in H. apply andb_true_iff in H as [H1 H2].
  destruct s as [|c2 s].
  - change (String c EmptyString) with (chr c).
    rewrite endswith_chr_chr. now apply negb_true_iff.
  - rewrite endswith_cons. now apply IH.
Qed.

Lemma endswith_snoc pre d : endswith (pre +:+ chr d) (chr d) = true.
Proof.
  induction pre as [|c pre IH].
  - rewrite str_app_nil_l, endswith_chr_chr. apply Ascii.eqb_refl.
  - rewrite str_app_cons. destruct (pre +:+ chr d) eqn:E.
    + destruct pre; discriminate.
    + rewrite endswith_cons. exact IH.
Qed.

Lemma drop_last_snoc pre d : drop_last (pre +:+ chr d) = pre.
Proof.
  unfold drop_last. rewrite len_app. unfold chr at 2, len at 2. simpl String.length.
  replace (len pre + 1 - 1) with (len pre) by lia.
  induction pre as [|c pre IH]; [reflexivity|].
  rewrite str_app_cons. unfold len in *. simpl. now rewrite IH.
Qed.

(** The returned string never holds the delimiter byte. *)
Lemma read_line_loop_free d : forall fuel chars w line w',
  free_of d (join chars) = true ->
  read_line_loop fuel (Some (chr d)) chars w = Some (Ok line, w') ->
  free_of d line = true.
Proof.
  induction fuel as [|fuel IH]; intros chars w line w' Hc; [discriminate|].
  cbn [read_line_loop]. unfold bind.
  read1_cases w E.
  - cbn. intros [= <- _]. exact Hc.
  - discriminate.
  - cbn. intros [= <- _]. exact Hc.
  - rewrite chr_eqb_nil. cbn [eq_delim]. rewrite chr_eqb.
    destruct (Ascii.eqb c d) eqn:Ecd.
    { intros [= <- _]. exact Hc. }
    assert (Hc' : free_of d (join (chars ++ [chr c])) = true).
    { rewrite join_snoc, free_of_app, Hc, free_of_chr, Ecd. reflexivity. }
    destruct (String.eqb (chr c) (chr NL)).
    { intros [= <- _]. exact Hc'. }
    apply IH. exact Hc'.
Qed.

(** Bytes that are neither the delimiter nor a newline are accumulated. *)
Lemma read_line_loop_reads delim fd pre fd' :
  reads fd pre fd' ->
  forall w fuel chars,
    stdin_fd w = fd ->
    (forall d, delim = Some (chr d) -> free_of d pre = true) ->
    free_of NL pre = true ->
    exists chars', join chars' = join chars +:+ pre /\
      read_line_loop (len pre + fuel) delim chars w
        = read_line_loop fuel delim chars' (set_stdin fd' w).
Proof.
  induction 1 as [fd|c s rest pre fd' Hr IH]; intros w fuel chars Hw Hd Hn.
  - exists chars. rewrite str_app_nil_r. subst fd. now rewrite set_stdin_same.
  - change (len (String c pre) + fuel) with (S (len pre + fuel)).
    cbn [read_line_loop]. unfold bind at 1.
    rewrite (posix_read1_byte c s rest w Hw). rewrite chr_eqb_nil.
    simpl in Hn. apply andb_true_iff in Hn as [Hn1 Hn2].
    assert (Ed : eq_delim (chr c) delim = false).
    { destruct delim as [ds|]; [|reflexivity]. cbn [eq_delim].
      destruct (String.eqb (chr c) ds) eqn:Eq; [|reflexivity].
      apply String.eqb_eq in Eq. subst ds.
      specialize (Hd c eq_refl). simpl in Hd. now rewrite Ascii.eqb_refl in Hd. }
    rewrite Ed, chr_eqb. apply negb_true_iff in Hn1. rewrite Hn1.
    destruct (IH (set_stdin (after_byte s rest) w) fuel (chars ++ [chr c]))
      as (chars' & Hj & E).
    + reflexivity.
    + intros d Hdd. specialize (Hd d Hdd). simpl in Hd.
      now apply andb_true_iff in Hd as [_ Hd].
    + exact Hn2.
    + exists chars'. split.
      * rewrite Hj, join_snoc, str_app_assoc. reflexivity.
      * rewrite E. now rewrite set_stdin_twice.
Qed.

Lemma reads_app fd a fd1 b fd2 :
  reads fd a fd1 -> reads fd1 b fd2 -> reads fd (a +:+ b) fd2.
Proof.
  induction 1 as [fd|c s rest pre fd' Hr IH]; intros H2; [exact H2|].
  rewrite str_app_cons. constructor. now apply IH.
Qed.

Lemma reads_app_inv a : forall fd b fd2,
  reads fd (a +:+ b) fd2 -> exists fd1, reads fd a fd1 /\ reads fd1 b fd2.
Proof.
  induction a as [|c a IH]; intros fd b fd2 H.
  - exists fd. split; [constructor | exact H].
  - rewrite str_app_cons in H. inversion H as [|c0 s rest pre fd' Hr]; subst.
    destruct (IH _ _ _ Hr) as (fd1 & H1 & H2).
    exists fd1. split; [now constructor | exact H2].
Qed.

Lemma reads_size fd pre fd' : reads fd pre fd' -> len pre + fd_size fd' <= fd_size fd.
Proof.
  induction 1 as [fd|c s rest pre fd' Hr IH]; [simpl; lia|].
  pose proof (fd_size_after_byte c s rest). unfold len in *. simpl String.length. lia.
Qed.

Lemma ReadLine_prefix delim pre fd1 w :
  reads (stdin_fd w) pre fd1 ->
  (forall d, delim = Some (chr d) -> free_of d pre = true) ->
  free_of NL pre = true ->
  exists chars' fuel, join chars' = pre /\
    ReadLineFromStdin delim w = read_line_loop (S fuel) delim chars' (set_stdin fd1 w).
Proof.
  intros Hr Hd Hn. pose proof (reads_size _ _ _ Hr) as Hs.
  destruct (read_line_loop_reads delim _ _ _ Hr w
              (S (fd_size (stdin_fd w) - len pre)) [] eq_refl Hd Hn)
    as (chars' & Hj & E).
  exists chars', (fd_size (stdin_fd w) - len pre). split; [exact Hj|].
  unfold ReadLineFromStdin, bind, get_world. rewrite <- E. f_equal. lia.
Qed.

Lemma reads_one c fd fd' :
  reads fd (chr c) fd' ->
  exists s rest, fd = Data (String c s) :: rest /\ fd' = after_byte s rest.
Proof.
  intros H. inversion H as [|c0 s rest pre fd0 Hr]; subst.
  inversion Hr; subst. eauto.
Qed.

(** The reader stops at the delimiter byte, which it consumes and drops. *)
Lemma ReadLine_stops_at_delim d pre fd' w :
  reads (stdin_fd w) (pre +:+ chr d) fd' ->
  free_of d pre = true -> free_of NL pre = true ->
  ReadLineFromStdin (Some (chr d)) w = Some (Ok pre, set_stdin fd' w).
Proof.
  intros Hr Hd Hn. apply reads_app_inv in Hr as (fd1 & H1 & H2).
  apply reads_one in H2 as (s & rest & -> & ->).
  destruct (ReadLine_prefix (Some (chr d)) pre _ w H1) as (chars' & fuel & Hj & ->).
  { intros d0 [= E]. now subst d0. }
  { exact Hn. }
  cbn [read_line_loop]. unfold bind.
  rewrite (posix_read1_byte d s rest) by reflexivity.
  rewrite chr_eqb_nil. cbn [eq_delim]. rewrite chr_eqb, Ascii.eqb_refl.
  unfold ret. now rewrite Hj, set_stdin_twice.
Qed.

(** The reader stops after a newline byte that is not the delimiter, and
    keeps it. *)
Lemma ReadLine_stops_at_newline delim pre fd' w :
  reads (stdin_fd w) (pre +:+ chr NL) fd' ->
  eq_delim (chr NL) delim = false ->
  (forall d, delim = Some (chr d) -> free_of d pre = true) ->
  free_of NL pre = true ->
  ReadLineFromStdin delim w = Some (Ok (pre +:+ chr NL), set_stdin fd' w).
Proof.
  intros Hr He Hd Hn. apply reads_app_inv in Hr as (fd1 & H1 & H2).
  apply reads_one in H2 as (s & rest & -> & ->).
  destruct (ReadLine_prefix delim pre _ w H1 Hd Hn) as (chars' & fuel & Hj & ->).
  cbn [read_line_loop]. unfold bind.
  rewrite (posix_read1_byte NL s rest) by reflexivity.
  rewrite chr_eqb_nil, He, chr_eqb, Ascii.eqb_refl.
  unfold ret. now rewrite join_snoc, Hj, set_stdin_twice.
Qed.

(** The reader stops at a read of zero bytes and returns what it has. *)
Lemma ReadLine_stops_at_eof delim pre fd1 fd' w :
  reads (stdin_fd w) pre fd1 -> at_eof fd1 fd' ->
  (forall d, delim = Some (chr d) -> free_of d pre = true) ->
  free_of NL pre = true ->
  ReadLineFromStdin delim w = Some (Ok pre, set_stdin fd' w).
Proof.
  intros Hr He Hd Hn.
  destruct (ReadLine_prefix delim pre _ w Hr Hd Hn) as (chars' & fuel & Hj & ->).
  cbn [read_line_loop]. unfold bind, posix_read. rewrite stdin_set_stdin.
  destruct He; cbn; unfold ret; now rewrite Hj.
Qed.

(** C9 (amended): with a custom delimiter byte [d], the line reader always
    returns or raises, and the string it returns never holds [d], so it
    never ends with [d]; when the
    stream delivers [pre], free of [d] and of newlines, and then [d], the
    reader returns [pre] and has consumed [d]; and when it delivers such a
    [pre] and then a newline that is not itself the delimiter, the reader
    returns [pre] with the newline and has consumed it. *)
Theorem ReadLine_delimiter_dropped (d : ascii) (w : world) :
  (exists res fd', ReadLineFromStdin (Some (chr d)) w = Some (res, set_stdin fd' w)) /\
  (forall line w', ReadLineFromStdin (Some (chr d)) w = Some (Ok line, w') ->
     free_of d line = true /\ endswith line (chr d) = false) /\
  (forall pre fd', reads (stdin_fd w) (pre +:+ chr d) fd' ->
     free_of d pre = true -> free_of NL pre = true ->
     ReadLineFromStdin (Some (chr d)) w = Some (Ok pre, set_stdin fd' w)) /\
  (forall pre fd', d <> NL -> reads (stdin_fd w) (pre +:+ chr NL) fd' ->
     free_of d pre = true -> free_of NL pre = true ->
     ReadLineFromStdin (Some (chr d)) w
       = Some (Ok (pre +:+ chr NL), set_stdin fd' w)).
Proof.
  split; [|split; [|split]].
  - destruct (ReadLineFromStdin_total (Some (chr d)) w) as (res & fd' & E & _).
    eauto.
  - intros line w' H. unfold ReadLineFromStdin, bind, get_world in H.
    apply read_line_loop_free in H; [|reflexivity].
    split; [exact H | now apply free_of_endswith].
  - intros pre fd'. apply ReadLine_stops_at_delim.
  - intros pre fd' Hne Hr Hd Hn. apply ReadLine_stops_at_newline; auto.
    + cbn [eq_delim]. rewrite chr_eqb. apply Ascii.eqb_neq. congruence.
    + intros d0 [= E]. now subst d0.
Qed.

(** C9, as stated, fails when the delimiter is the newline byte itself: the
    newline that ends the line is consumed but not returned. *)
Lemma ReadLine_newline_delimiter_dropped :
  ReadLineFromStdin (Some (chr NL)) (pipe [Data ("ab" +:+ chr NL)])
    = Some (Ok "ab", pipe []) /\
  endswith "ab" (chr NL) = false.
Proof. split; reflexivity. Qed.

(** ** Fixed-byte-count mode *)

Lemma read_tty_loop_total : forall fuel n s w,
  Z.to_nat n <= fuel ->
  exists res fd', read_tty_loop fuel n s w = Some (res, set_stdin fd' w) /\
    ((exists s', res = Ok s') \/ res = Raise OSError).
Proof.
  induction fuel as [|fuel IH]; intros n s w Hf.
  - cbn [read_tty_loop]. destruct (0 <? n)%Z eqn:En.
    + apply Z.ltb_lt in En. lia.
    + exists (Ok s), (stdin_fd w). rewrite set_stdin_same. unfold ret. eauto.
  - cbn [read_tty_loop]. destruct (0 <? n)%Z eqn:En.
    + apply Z.ltb_lt in En. unfold bind.
      destruct (posix_read1_inv w)
        as [[E ->]|[(rest & E & ->)|[(rest & E & ->)|(c & s1 & rest & E & ->)]]].
      * apply IH. lia.
      * exists (Raise OSError), rest. eauto.
      * destruct (IH (n - 1)%Z (s +:+ EmptyString) (set_stdin rest w))
          as (res & fd' & E1 & H1); [lia|].
        rewrite set_stdin_twice in E1. eauto.
      * destruct (IH (n - 1)%Z (s +:+ chr c) (set_stdin (after_byte s1 rest) w))
          as (res & fd' & E1 & H1); [lia|].
        rewrite set_stdin_twice in E1. eauto.
    + exists (Ok s), (stdin_fd w). rewrite set_stdin_same. unfold ret. eauto.
Qed.

(** C4: in fixed-byte-count mode on an interactive terminal, whatever the
    descriptor delivers, including a failing read, [Read.Run] ends with the
    terminal attributes it found on entry: the attributes with canonical mode
    disabled are applied, then the saved ones, and nothing else.  A normal
    exit has status 0; an exit by [OSError] binds no variable. *)
Theorem read_n_tty_restores_attrs
  (SplitForRead : string -> bool -> list span)
  (r : bool) (n : Z) (a d : option string) (names : list string)
  (fd : list event) (attrs : termios_attrs) (log : list termios_attrs)
  (m : gmap string value) :
  exists res fd' m',
    Run SplitForRead (ReadArgs r (Some n) a d) names (World fd true attrs log m)
      = Some (res, World fd' true attrs
                     (attrs :: disable_canonical attrs :: log) m') /\
    tty_attrs (World fd' true attrs (attrs :: disable_canonical attrs :: log) m')
      = tty_attrs (World fd true attrs log m) /\
    ((res = Ok 0%Z) \/ (res = Raise OSError /\ m' = m)).
Proof.
  unfold Run. cbn [arg_n]. unfold read_n_bytes, bind, isatty, tcgetattr, try_finally.
  cbn [stdin_isatty tty_attrs]. unfold tcsetattr at 1. cbn [stdin_fd stdin_isatty tcsetattr_log mem].
  destruct (read_tty_loop_total (Z.to_nat n) n EmptyString
              (World fd true (disable_canonical attrs) (disable_canonical attrs :: log) m))
    as (res & fd' & E & Hres); [lia|].
  rewrite E. unfold tcsetattr, set_stdin. cbn [stdin_fd stdin_isatty tcsetattr_log mem tty_attrs].
  destruct Hres as [[s' ->]| ->].
  - unfold SetLocalString, set_var, ret.
    cbn [stdin_fd stdin_isatty tcsetattr_log mem tty_attrs].
    eexists _, fd', _. split; [reflexivity|]. split; [reflexivity|]. left. reflexivity.
  - exists (Raise OSError), fd', m. split; [reflexivity|]. split; [reflexivity|].
    right. split; reflexivity.
Qed.

(** A failing read on a terminal: the exception propagates and the saved
    attributes are back in place. *)
Example read_n_tty_failing_read :
  Run (split_model ifs_default) (ReadArgs false (Some 3%Z) None None) ["a"]
    (terminal [Data "a"; Fail; Data "bcdef"])
  = Some (Raise OSError,
          World [Data "bcdef"] true attrs0 [attrs0; disable_canonical attrs0] ∅).
Proof. reflexivity. Qed.

Lemma len_substring_0 s : forall n, n <= len s -> len (String.substring 0 n s) = n.
Proof.
  induction s as [|c s IH]; intros n Hn.
  - unfold len in *. simpl in Hn. destruct n; [reflexivity | lia].
  - destruct n as [|n]; [reflexivity|].
    unfold len in *. simpl in *. rewrite IH; lia.
Qed.

Lemma substring_0_split s n :
  n <= len s -> s = String.substring 0 n s +:+ String.substring n (len s - n) s.
Proof.
  intros Hn. rewrite <- (substring_full s) at 1.
  replace (len s) with (n + (len s - n)) at 1 by lia.
  now rewrite substring_split.
Qed.

Lemma len_nonempty s : String.eqb s EmptyString = false <-> 0 < len s.
Proof.
  destruct s; unfold len; simpl; split; intros H; try reflexivity; try lia; discriminate.
Qed.

Lemma read_block_loop_zero fuel n s w :
  (n <= 0)%Z -> read_block_loop fuel n s w = Some (Ok s, w).
Proof.
  intros Hn. destruct fuel; cbn [read_block_loop];
    (destruct (0 <? n)%Z eqn:En; [apply Z.ltb_lt in En; lia | reflexivity]).
Qed.

(** Reading a whole non-empty burst, or the front of a longer one, is
    reading its bytes one at a time. *)
Lemma reads_prefix a : forall b rest,
  b <> EmptyString -> reads (Data (a +:+ b) :: rest) a (Data b :: rest).
Proof.
  induction a as [|c a IH]; intros b rest Hb.
  - rewrite str_app_nil_l. constructor.
  - rewrite str_app_cons. constructor.
    destruct (a +:+ b) as [|c2 s2] eqn:E.
    + destruct a; [|discriminate]. rewrite str_app_nil_l in E. contradiction.
    + cbn [after_byte]. rewrite <- E. now apply IH.
Qed.

Lemma reads_burst s : forall rest,
  s <> EmptyString -> reads (Data s :: rest) s rest.
Proof.
  induction s as [|c s IH]; intros rest Hs; [contradiction|].
  constructor. destruct s as [|c2 s2]; [constructor|].
  cbn [after_byte]. apply IH. discriminate.
Qed.

(** The block loop on a descriptor whose reads do not fail. *)
Lemma read_block_loop_spec : forall fuel n s0 w,
  Z.to_nat n <= fuel -> no_fail (stdin_fd w) = true ->
  exists s1 fd',
    read_block_loop fuel n s0 w = Some (Ok (s0 +:+ s1), set_stdin fd' w) /\
    fd_bytes (stdin_fd w) = s1 +:+ fd_bytes fd' /\
    (Z.of_nat (len s1) <= Z.max 0 n)%Z /\
    (exists fd1, reads (stdin_fd w) s1 fd1 /\
       ((Z.of_nat (len s1) = Z.max 0 n /\ fd' = fd1) \/
        ((Z.of_nat (len s1) < n)%Z /\ at_eof fd1 fd'))) /\
    ((Z.of_nat (len s1) < n)%Z ->
       exists chunks fd1,
         Forall (fun c => c <> EmptyString) chunks /\
         stdin_fd w = map Data chunks ++ fd1 /\ s1 = join chunks /\ at_eof fd1 fd').
Proof.
  induction fuel as [|fuel IH]; intros n s0 w Hf Hnf.
  - assert (Hn : (n <= 0)%Z) by lia.
    rewrite read_block_loop_zero by exact Hn.
    exists EmptyString, (stdin_fd w). rewrite str_app_nil_r, set_stdin_same.
    split; [reflexivity|]. split; [reflexivity|]. split; [simpl; lia|].
    split; [|simpl; lia].
    exists (stdin_fd w). split; [constructor|]. left. split; [simpl; lia | reflexivity].
  - destruct (Z.leb_spec n 0) as [Hn|Hn].
    { rewrite read_block_loop_zero by exact Hn.
      exists EmptyString, (stdin_fd w). rewrite str_app_nil_r, set_stdin_same.
      split; [reflexivity|]. split; [reflexivity|]. split; [simpl; lia|].
      split; [|simpl; lia].
      exists (stdin_fd w). split; [constructor|]. left. split; [simpl; lia | reflexivity]. }
    cbn [read_block_loop]. apply Z.ltb_lt in Hn as Hn'. rewrite Hn'. clear Hn'.
    unfold bind, posix_read.
    destruct (stdin_fd w) as [|[s|] rest] eqn:E.
    + (* exhausted *)
      cbn. exists EmptyString, []. rewrite str_app_nil_r.
      rewrite <- E, set_stdin_same.
      split; [reflexivity|]. split; [now rewrite E|]. split; [simpl; lia|].
      split.
      * exists []. rewrite E. split; [constructor|]. right.
        split; [simpl; lia | constructor].
      * intros _. exists [], []. rewrite E. repeat split; constructor.
    + destruct (len s <=? Z.to_nat n) eqn:El.
      * apply Nat.leb_le in El. destruct (String.eqb s EmptyString) eqn:Es.
        { (* a read of zero bytes *)
          apply String.eqb_eq in Es. subst s.
          exists EmptyString, rest. rewrite str_app_nil_r.
          split; [reflexivity|]. split; [reflexivity|]. split; [simpl; lia|].
          split.
          - exists (Data EmptyString :: rest). split; [constructor|]. right.
            split; [simpl; lia | constructor].
          - intros _. exists [], (Data EmptyString :: rest).
            repeat split; constructor. }
        assert (Hne : s <> EmptyString) by (intros ->; discriminate).
        apply len_nonempty in Es.
        destruct (IH (n - Z.of_nat (len s))%Z (s0 +:+ s) (set_stdin rest w))
          as (s1 & fd' & E1 & Hb & Hl & (fd1 & Hr & Hcase) & Hshort).
        { lia. }
        { rewrite stdin_set_stdin. cbn [no_fail forallb] in Hnf. exact Hnf. }
        rewrite stdin_set_stdin in Hb, Hshort, Hr. rewrite set_stdin_twice in E1.
        exists (s +:+ s1), fd'. split; [now rewrite E1, str_app_assoc|].
        split; [cbn [fd_bytes]; now rewrite Hb, str_app_assoc|].
        split; [rewrite len_app; lia|].
        split.
        -- exists fd1. split.
           ++ apply (reads_app _ s rest s1 fd1); [now apply reads_burst | exact Hr].
           ++ rewrite len_app. destruct Hcase as [[Hx ->]|[Hx He]].
              ** left. split; [lia | reflexivity].
              ** right. split; [lia | exact He].
        -- intros Hlt. rewrite len_app in Hlt.
           destruct Hshort as (chunks & fd1c & Hall & Hfd & Hj & He); [lia|].
           exists (s :: chunks), fd1c. subst rest s1.
           repeat split; [now constructor | exact He].
      * (* the burst is longer than the request *)
        apply Nat.leb_gt in El.
        assert (Hlen : len (String.substring 0 (Z.to_nat n) s) = Z.to_nat n)
          by (apply len_substring_0; lia).
        assert (Hne : String.eqb (String.substring 0 (Z.to_nat n) s) EmptyString = false)
          by (apply len_nonempty; lia).
        assert (Hsplit : s = String.substring 0 (Z.to_nat n) s
                             +:+ String.substring (Z.to_nat n) (len s - Z.to_nat n) s)
          by (apply substring_0_split; lia).
        assert (Htail : String.substring (Z.to_nat n) (len s - Z.to_nat n) s <> EmptyString).
        { intros Ht. rewrite Ht, str_app_nil_r in Hsplit.
          rewrite Hsplit in El at 1. lia. }
        rewrite Hne, Hlen, read_block_loop_zero by lia.
        eexists _, _. split; [reflexivity|].
        split; [cbn [fd_bytes]; rewrite <- str_app_assoc; f_equal; exact Hsplit|].
        split; [lia|]. split; [|lia].
        eexists. split.
        -- rewrite Hsplit at 1. apply reads_prefix. exact Htail.
        -- left. split; [lia | reflexivity].
    + cbn [no_fail forallb] in Hnf. discriminate.
Qed.

(** C6: in fixed-byte-count mode on a descriptor that is not a terminal and
    whose reads do not fail, [Read.Run] returns status 0 and binds the first
    name, [REPLY] when there is none, to a string [s] that is a prefix of the
    stream of at most [N] bytes, the bytes after it staying in the stream.
    Either [s] has [N] bytes (none when [N <= 0]) and the descriptor stands
    right after them, or [s] is shorter, is made of whole non-empty bursts,
    and the read after them returned zero bytes, which ended the loop. *)
Theorem read_n_block_reads
  (SplitForRead : string -> bool -> list span)
  (r : bool) (n : Z) (a d : option string) (names : list string)
  (fd : list event) (attrs : termios_attrs) (log : list termios_attrs)
  (m : gmap string value) :
  no_fail fd = true ->
  exists s fd',
    Run SplitForRead (ReadArgs r (Some n) a d) names (World fd false attrs log m)
      = Some (Ok 0%Z,
              World fd' false attrs log (<[List.hd "REPLY" names := Str s]> m)) /\
    fd_bytes fd = s +:+ fd_bytes fd' /\
    (Z.of_nat (len s) <= Z.max 0 n)%Z /\
    (exists fd1, reads fd s fd1 /\
       ((Z.of_nat (len s) = Z.max 0 n /\ fd' = fd1) \/
        ((Z.of_nat (len s) < n)%Z /\ at_eof fd1 fd'))) /\
    ((Z.of_nat (len s) < n)%Z ->
       exists chunks fd1,
         Forall (fun c => c <> EmptyString) chunks /\
         fd = map Data chunks ++ fd1 /\ s = join chunks /\ at_eof fd1 fd').
Proof.
  intros Hnf. unfold Run. cbn [arg_n]. unfold read_n_bytes, bind, isatty.
  cbn [stdin_isatty].
  destruct (read_block_loop_spec (Z.to_nat n) n EmptyString
              (World fd false attrs log m) (Nat.le_refl _) Hnf)
    as (s & fd' & E & Hb & Hl & Hr & Hs).
  rewrite E. exists s, fd'. split.
  - unfold SetLocalString, set_var, ret, set_stdin.
    cbn [stdin_fd stdin_isatty tcsetattr_log mem tty_attrs].
    rewrite str_app_nil_l. destruct names; reflexivity.
  - auto.
Qed.

Lemma read_n_block_reads_witness :
  no_fail [Data "abcdef"] = true /\
  exists s fd',
    Run (split_model ifs_default) (ReadArgs false (Some 3%Z) None None) ["a"]
      (World [Data "abcdef"] false attrs0 [] ∅)
      = Some (Ok 0%Z, World fd' false attrs0 [] (<["a" := Str s]> ∅)) /\
    fd_bytes [Data "abcdef"] = s +:+ fd_bytes fd' /\
    (Z.of_nat (len s) <= Z.max 0 3)%Z /\
    (exists fd1, reads [Data "abcdef"] s fd1 /\
       ((Z.of_nat (len s) = Z.max 0 3 /\ fd' = fd1) \/
        ((Z.of_nat (len s) < 3)%Z /\ at_eof fd1 fd'))) /\
    ((Z.of_nat (len s) < 3)%Z ->
       exists chunks fd1,
         Forall (fun c => c <> EmptyString) chunks /\
         [Data "abcdef"] = map Data chunks ++ fd1 /\ s = join chunks /\ at_eof fd1 fd').
Proof.
  split; [reflexivity|].
  exact (read_n_block_reads (split_model ifs_default) false 3%Z None None ["a"]
           [Data "abcdef"] attrs0 [] ∅ eq_refl).
Defined.

(** The description of the outcome leaves no choice: the string read and
    the descriptor left behind are determined by the descriptor and [N]. *)
Lemma read_n_outcome_unique fd s1 fd1 :
  reads fd s1 fd1 ->
  forall n fd1' s2 fd2 fd2',
    (Z.of_nat (len s1) = Z.max 0 n /\ fd1' = fd1) \/
    ((Z.of_nat (len s1) < n)%Z /\ at_eof fd1 fd1') ->
    reads fd s2 fd2 ->
    (Z.of_nat (len s2) = Z.max 0 n /\ fd2' = fd2) \/
    ((Z.of_nat (len s2) < n)%Z /\ at_eof fd2 fd2') ->
    s1 = s2 /\ fd1' = fd2'.
Proof.
  induction 1 as [fd|c s rest pre fd1 Hr IH]; intros n fd1' s2 fd2 fd2' H1 Hr2 H2.
  - inversion Hr2 as [fd0|c2 sb rest2 pre2 fd0 Hr2']; subst.
    + split; [reflexivity|].
      destruct H1 as [[Ha ->]|[Ha He1]], H2 as [[Hb ->]|[Hb He2]];
        cbn [len String.length] in *; try lia; try reflexivity.
      inversion He1; subst; inversion He2; subst; reflexivity.
    + exfalso. change (len (String c2 pre2)) with (S (len pre2)) in H2.
      destruct H1 as [[Ha ->]|[Ha He1]]; cbn [len String.length] in Ha.
      * destruct H2 as [[Hb _]|[Hb _]]; lia.
      * inversion He1.
  - inversion Hr2 as [fd0|c2 sb rest2 pre2 fd0 Hr2']; subst.
    + exfalso. change (len (String c pre)) with (S (len pre)) in H1.
      destruct H2 as [[Hb ->]|[Hb He2]]; cbn [len String.length] in Hb.
      * destruct H1 as [[Ha _]|[Ha _]]; lia.
      * inversion He2.
    + change (len (String c pre)) with (S (len pre)) in H1.
      change (len (String c pre2)) with (S (len pre2)) in H2.
      destruct (IH (n - 1)%Z fd1' pre2 fd2 fd2') as [-> ->]; [| exact Hr2' | | auto].
      * destruct H1 as [[Ha ->]|[Ha He1]]; [left | right]; split; auto; lia.
      * destruct H2 as [[Hb ->]|[Hb He2]]; [left | right]; split; auto; lia.
Qed.

(** A read of zero bytes between two bursts ends the loop: [a] is read and
    ["bc"] stays, although five bytes were asked for. *)
Example read_n_block_zero_read :
  Run (split_model ifs_default) (ReadArgs false (Some 5%Z) None None) ["v"]
    (pipe [Data "a"; Data ""; Data "bc"])
  = Some (Ok 0%Z, World [Data "bc"] false attrs0 [] (<["v" := Str "a"]> ∅)).
Proof. reflexivity. Qed.

(** The scenario of the spec: three bytes of ["abcdef"] go to [a], the rest
    stays in the stream. *)
Example read_n_block_abcdef :
  Run (split_model ifs_default) (ReadArgs false (Some 3%Z) None None) ["a"]
    (pipe [Data "abcdef"])
  = Some (Ok 0%Z, World [Data "def"] false attrs0 [] (<["a" := Str "abc"]> ∅)).
Proof. reflexivity. Qed.

(** ** Delimited mode *)

Section Delimited.

Variable SplitForRead : string -> bool -> list span.

Lemma read_lines_eof fuel esc k delim jn ps w w' :
  ReadLineFromStdin delim w = Some (Ok EmptyString, w') ->
  read_lines SplitForRead (S fuel) esc k delim jn ps w = Some (Ok (1%Z, ps), w').
Proof. intros H. cbn [read_lines]. unfold bind. now rewrite H. Qed.

Lemma read_lines_step fuel esc k delim jn ps w line w' done jn' ps' :
  ReadLineFromStdin delim w = Some (Ok line, w') ->
  line <> EmptyString ->
  _AppendParts (stripped line) (SplitForRead (stripped line) esc) k jn ps
    = Ok (done, jn', ps') ->
  read_lines SplitForRead (S fuel) esc k delim jn ps w =
    if done then Some (Ok (line_status line, ps'), w')
    else read_lines SplitForRead fuel esc k delim jn' ps' w'.
Proof.
  intros H Hne Ha. cbn [read_lines]. unfold bind. rewrite H.
  destruct (String.eqb line EmptyString) eqn:E.
  { apply String.eqb_eq in E. contradiction. }
  unfold stripped, line_status in *.
  destruct (endswith line (chr NL)); rewrite Ha; destruct done; reflexivity.
Qed.

Lemma read_lines_raise fuel esc k delim jn ps w e w' :
  ReadLineFromStdin delim w = Some (Raise e, w') ->
  read_lines SplitForRead (S fuel) esc k delim jn ps w = Some (Raise e, w').
Proof. intros H. cbn [read_lines]. unfold bind. now rewrite H. Qed.

(** From a loop head the rest of the run is the loop resumed there, with
    fuel to spare. *)
Lemma loop_head_resume esc k delim w0 jn ps w :
  loop_head SplitForRead esc k delim w0 jn ps w ->
  exists fuel,
    fd_size (stdin_fd w) < fuel /\
    read_lines SplitForRead (S (fd_size (stdin_fd w0))) esc k delim false [] w0
      = read_lines SplitForRead fuel esc k delim jn ps w.
Proof.
  induction 1 as [|jn ps w line w' jn' ps' Hh IH Hr Hne Ha].
  - exists (S (fd_size (stdin_fd w0))). split; [lia | reflexivity].
  - destruct IH as (fuel & Hf & E).
    destruct fuel as [|fuel]; [lia|].
    destruct (ReadLineFromStdin_total delim w) as (r & fd' & Er & Hle & Hlt).
    rewrite Hr in Er. injection Er as <- ->.
    specialize (Hlt line eq_refl Hne).
    exists fuel. split; [rewrite stdin_set_stdin; lia|].
    rewrite E. now rewrite (read_lines_step fuel esc k delim jn ps w line _ false jn' ps' Hr Hne Ha).
Qed.

(** Every loop head is within the cap. *)
Lemma loop_head_capped esc k delim w0 jn ps w :
  0 < k ->
  loop_head SplitForRead esc k delim w0 jn ps w ->
  length ps <= k /\ (length ps = k -> jn = true) /\ (jn = true -> ps <> []).
Proof.
  intros Hk. induction 1 as [|jn ps w line w' jn' ps' Hh IH Hr Hne Ha].
  - simpl. split; [lia|]. split; [lia | discriminate].
  - destruct IH as (H1 & H2 & H3).
    assert (Hok : join_ok (LoopState 0 false jn ps)) by (split; simpl; [auto | discriminate]).
    assert (Hc : capped k (LoopState 0 false jn ps)) by (split; simpl; auto).
    destruct (for_spans_capped (stripped line) k
                (SplitForRead (stripped line) esc) _ Hk Hok Hc)
      as (st & E & Hok' & Hc' & _).
    unfold _AppendParts in Ha. rewrite E in Ha. injection Ha as _ <- <-.
    split; [apply Hc'|]. split; [apply Hc' | apply Hok'].
Qed.

End Delimited.

(** *** Binding the names *)

Lemma bind_names_spec names ps : forall range w,
  (forall i, In i range -> i < length names) ->
  bind_names names ps range w
    = Some (Ok tt, set_mem (fold_left (bind_step names ps) range (mem w)) w).
Proof.
  induction range as [|i range IH]; intros w Hr.
  - destruct w; reflexivity.
  - cbn [bind_names fold_left].
    destruct (names !! i) as [name|] eqn:En.
    + assert (Hs : bind_step names ps (mem w) i
                   = <[name := Str (part_or_empty ps i)]> (mem w))
        by (unfold bind_step; now rewrite En).
      rewrite Hs. unfold bind, SetStringDynamic, set_var. rewrite IH.
      * reflexivity.
      * intros j Hj. apply Hr. now right.
    + apply lookup_ge_None in En. specialize (Hr i (or_introl eq_refl)). lia.
Qed.

Lemma fold_bind_lookup_other names ps name : forall n m,
  (forall j, j < n -> names !! j <> Some name) ->
  fold_left (bind_step names ps) (seq 0 n) m !! name = m !! name.
Proof.
  induction n as [|n IH]; intros m Hn; [reflexivity|].
  rewrite seq_S, fold_left_app. cbn [fold_left Nat.add].
  unfold bind_step at 1. destruct (names !! n) as [name'|] eqn:En.
  - rewrite lookup_insert_ne.
    + apply IH. intros j Hj. apply Hn. lia.
    + intros ->. apply (Hn n); [lia | exact En].
  - apply IH. intros j Hj. apply Hn. lia.
Qed.

Lemma fold_bind_lookup_last names ps name i : forall n m,
  i < n -> names !! i = Some name ->
  (forall j, i < j -> j < n -> names !! j <> Some name) ->
  fold_left (bind_step names ps) (seq 0 n) m !! name
    = Some (Str (part_or_empty ps i)).
Proof.
  induction n as [|n IH]; intros m Hi Hname Hlast; [lia|].
  rewrite seq_S, fold_left_app. cbn [fold_left Nat.add].
  destruct (Nat.eq_dec i n) as [->|Hne].
  - unfold bind_step at 1. rewrite Hname. apply lookup_insert_eq.
  - unfold bind_step at 1. destruct (names !! n) as [name'|] eqn:En.
    + rewrite lookup_insert_ne.
      * apply IH; [lia | exact Hname |]. intros j H1 H2. apply Hlast; lia.
      * intros ->. apply (Hlast n); [lia | lia | exact En].
    + apply IH; [lia | exact Hname |]. intros j H1 H2. apply Hlast; lia.
Qed.

Lemma fold_bind_names_bound names ps m :
  names_bound names ps m
    (fold_left (bind_step names ps) (seq 0 (length names)) m).
Proof.
  split; [|split].
  - intros i name p Hn Hl Hp.
    rewrite (fold_bind_lookup_last names ps name i).
    + unfold part_or_empty. now rewrite Hp.
    + now apply lookup_lt_Some in Hn.
    + exact Hn.
    + intros j H1 _. now apply Hl.
  - intros i name Hn Hl Hp.
    rewrite (fold_bind_lookup_last names ps name i).
    + unfold part_or_empty. now rewrite Hp.
    + now apply lookup_lt_Some in Hn.
    + exact Hn.
    + intros j H1 _. now apply Hl.
  - intros name Hn. apply fold_bind_lookup_other. intros j _. apply Hn.
Qed.

(** *** The orchestrator in delimited mode *)

Section RunDelimited.

Variable SplitForRead : string -> bool -> list span.

Lemma Run_names arg argv w0 status ps w1 :
  arg_n arg = None -> truthy (arg_a arg) = false ->
  read_fields SplitForRead arg (default_names argv) w0 = Some (Ok (status, ps), w1) ->
  Run SplitForRead arg argv w0
    = Some (Ok status,
            set_mem (fold_left (bind_step (default_names argv) ps)
                       (seq 0 (length (default_names argv))) (mem w1)) w1).
Proof.
  intros Hn Ha Hf. unfold Run. rewrite Hn. unfold bind at 1. rewrite Hf, Ha.
  unfold get_max_results. rewrite Ha. unfold bind.
  rewrite bind_names_spec; [reflexivity|].
  intros i Hi. apply in_seq in Hi. lia.
Qed.

Lemma Run_array arg argv w0 status ps w1 a :
  arg_n arg = None -> arg_a arg = Some a -> truthy (arg_a arg) = true ->
  read_fields SplitForRead arg (default_names argv) w0 = Some (Ok (status, ps), w1) ->
  Run SplitForRead arg argv w0
    = Some (Ok status, set_mem (<[a := MaybeStrArray ps]> (mem w1)) w1).
Proof.
  intros Hn Ha Ht Hf. unfold Run. rewrite Hn. unfold bind at 1. rewrite Hf, Ht, Ha.
  reflexivity.
Qed.

Lemma default_names_length argv : 0 < length (default_names argv).
Proof. destruct argv; simpl; lia. Qed.

(** A run whose loop reaches a head where the reader returns a non-empty
    line that completes the assembly ends with the status of that line. *)
Lemma Run_last_line arg argv w0 jn ps w line w' jn' ps' :
  arg_n arg = None -> truthy (arg_a arg) = false ->
  loop_head SplitForRead (negb (arg_r arg)) (length (default_names argv))
    (get_delim_char arg) w0 jn ps w ->
  ReadLineFromStdin (get_delim_char arg) w = Some (Ok line, w') ->
  line <> EmptyString ->
  _AppendParts (stripped line) (SplitForRead (stripped line) (negb (arg_r arg)))
    (length (default_names argv)) jn ps = Ok (true, jn', ps') ->
  read_fields SplitForRead arg (default_names argv) w0
    = Some (Ok (line_status line, ps'), w') /\
  exists m',
    Run SplitForRead arg argv w0 = Some (Ok (line_status line), set_mem m' w') /\
    names_bound (default_names argv) ps' (mem w') m'.
Proof.
  intros Hn Ha Hh Hr Hne Hap.
  assert (Hf : read_fields SplitForRead arg (default_names argv) w0
               = Some (Ok (line_status line, ps'), w')).
  { unfold read_fields, bind, get_world, get_max_results. rewrite Ha.
    destruct (loop_head_resume SplitForRead _ _ _ _ _ _ _ Hh) as (fuel & Hf & ->).
    destruct fuel as [|fuel]; [lia|].
    now rewrite (read_lines_step SplitForRead fuel _ _ _ jn ps w line w' true jn' ps'). }
  split; [exact Hf|].
  eexists. split.
  - apply (Run_names arg argv w0 _ ps' w' Hn Ha Hf).
  - apply fold_bind_names_bound.
Qed.

End RunDelimited.

(** C7: in delimited mode, when the line reader returns the empty string at
    a loop head of the run (the first or a later one), [Read.Run] returns
    status 1 and still binds the names, which are the names given on the
    command line, or [REPLY] alone when none is given: [parts], which has at
    most as many elements as there are names, is bound element by element to
    the names in order, and every name past the end of [parts] is bound to
    the empty string (a name listed more than once keeps its last
    binding). *)
Theorem read_stream_end_commits
  (SplitForRead : string -> bool -> list span)
  (arg : read_args) (argv names : list string) (w0 : world)
  (jn : bool) (ps : list string) (w w' : world) :
  arg_n arg = None -> truthy (arg_a arg) = false ->
  (argv = names /\ names <> []) \/ (argv = [] /\ names = ["REPLY"]) ->
  loop_head SplitForRead (negb (arg_r arg)) (length names)
    (get_delim_char arg) w0 jn ps w ->
  ReadLineFromStdin (get_delim_char arg) w = Some (Ok EmptyString, w') ->
  exists m',
    Run SplitForRead arg argv w0 = Some (Ok 1%Z, set_mem m' w') /\
    length ps <= length names /\
    names_bound names ps (mem w') m'.
Proof.
  intros Hn Ha Hnames Hh Hr.
  assert (Hdn : default_names argv = names).
  { destruct Hnames as [[-> Hne]|[-> ->]]; [|reflexivity].
    destruct names; [contradiction | reflexivity]. }
  subst names.
  eexists. split; [|split].
  - apply (Run_names SplitForRead arg argv w0 1%Z ps w' Hn Ha).
    unfold read_fields, bind, get_world, get_max_results. rewrite Ha.
    destruct (loop_head_resume SplitForRead _ _ _ _ _ _ _ Hh) as (fuel & Hf & ->).
    destruct fuel as [|fuel]; [lia|]. now apply read_lines_eof.
  - eapply loop_head_capped; [apply default_names_length | exact Hh].
  - apply fold_bind_names_bound.
Qed.

(** Two instances with the names [a] and [b]: on the empty stream both are
    bound to the empty string; on a stream that ends after a continuation
    line, [a] is bound to the part [x] assembled before the end and [b] to
    the empty string.  The status is 1 in both. *)
Lemma read_stream_end_commits_witness :
  (exists m',
     Run (split_model ifs_default) (ReadArgs false None None None) ["a"; "b"]
       (pipe [])
       = Some (Ok 1%Z, set_mem m' (pipe [])) /\
     names_bound ["a"; "b"] [] ∅ m' /\
     m' !! "a" = Some (Str "") /\ m' !! "b" = Some (Str "")) /\
  (exists m',
     Run (split_model ifs_default) (ReadArgs false None None None) ["a"; "b"]
       (pipe [Data (String "x" (String BACKSLASH (chr NL)))])
       = Some (Ok 1%Z, set_mem m' (pipe [])) /\
     names_bound ["a"; "b"] ["x"] ∅ m' /\
     m' !! "a" = Some (Str "x") /\ m' !! "b" = Some (Str "")).
Proof.
  assert (Hlast_a : forall j, 0 < j -> ["a"; "b"] !! j <> Some "a").
  { intros [|[|j]] Hj; [lia | discriminate | discriminate]. }
  assert (Hlast_b : forall j, 1 < j -> ["a"; "b"] !! j <> Some "b").
  { intros [|[|j]] Hj; [lia | lia | discriminate]. }
  split.
  - destruct (read_stream_end_commits (split_model ifs_default)
                (ReadArgs false None None None) ["a"; "b"] ["a"; "b"] (pipe [])
                false [] (pipe []) (pipe []))
      as (m' & HR & _ & Hb).
    + reflexivity.
    + reflexivity.
    + left. split; [reflexivity | discriminate].
    + apply head_first.
    + reflexivity.
    + exists m'. split; [exact HR|]. split; [exact Hb|].
      destruct Hb as (_ & Hempty & _). split.
      * apply (Hempty 0 "a" eq_refl Hlast_a eq_refl).
      * apply (Hempty 1 "b" eq_refl Hlast_b eq_refl).
  - destruct (read_stream_end_commits (split_model ifs_default)
                (ReadArgs false None None None) ["a"; "b"] ["a"; "b"]
                (pipe [Data (String "x" (String BACKSLASH (chr NL)))])
                true ["x"] (pipe []) (pipe []))
      as (m' & HR & _ & Hb).
    + reflexivity.
    + reflexivity.
    + left. split; [reflexivity | discriminate].
    + apply (head_next _ _ _ _ _ false []
               (pipe [Data (String "x" (String BACKSLASH (chr NL)))])
               (String "x" (String BACKSLASH (chr NL))) (pipe []) true ["x"]).
      * apply head_first.
      * reflexivity.
      * discriminate.
      * reflexivity.
    + reflexivity.
    + exists m'. split; [exact HR|]. split; [exact Hb|].
      destruct Hb as (Hpart & Hempty & _). split.
      * apply (Hpart 0 "a" "x" eq_refl Hlast_a eq_refl).
      * apply (Hempty 1 "b" eq_refl Hlast_b eq_refl).
Defined.

(** The scenario of the spec: an empty stream, names [a] and [b]. *)
Example read_empty_stream :
  Run (split_model ifs_default) (ReadArgs false None None None) ["a"; "b"] (pipe [])
  = Some (Ok 1%Z, World [] false attrs0 [] (<["b" := Str ""]> (<["a" := Str ""]> ∅))).
Proof. reflexivity. Qed.

(** C10: in delimited mode with the custom delimiter byte [d], when the
    first byte of a line is [d] the reader consumes that byte and returns the
    empty string, which [Read.Run] takes for the end of the stream: it
    returns status 1, binds the parts assembled so far to the names (the
    names given, or [REPLY] alone when none is given) and the empty string
    to every further name, and leaves the bytes after the delimiter
    unread. *)
Theorem read_leading_delimiter_stops
  (SplitForRead : string -> bool -> list span)
  (arg : read_args) (argv names : list string) (w0 : world)
  (jn : bool) (ps : list string) (w : world)
  (d : ascii) (s : string) (rest : list event) :
  arg_n arg = None -> truthy (arg_a arg) = false ->
  (argv = names /\ names <> []) \/ (argv = [] /\ names = ["REPLY"]) ->
  get_delim_char arg = Some (chr d) ->
  loop_head SplitForRead (negb (arg_r arg)) (length names)
    (get_delim_char arg) w0 jn ps w ->
  stdin_fd w = Data (String d s) :: rest ->
  ReadLineFromStdin (Some (chr d)) w
    = Some (Ok EmptyString, set_stdin (after_byte s rest) w) /\
  exists m',
    Run SplitForRead arg argv w0
      = Some (Ok 1%Z, set_mem m' (set_stdin (after_byte s rest) w)) /\
    length ps <= length names /\
    names_bound names ps (mem w) m'.
Proof.
  intros Hn Ha Hnames Hd Hh Hw.
  assert (Hdn : default_names argv = names).
  { destruct Hnames as [[-> Hne]|[-> ->]]; [|reflexivity].
    destruct names; [contradiction | reflexivity]. }
  subst names.
  assert (Hr : ReadLineFromStdin (Some (chr d)) w
               = Some (Ok EmptyString, set_stdin (after_byte s rest) w)).
  { apply ReadLine_stops_at_delim; [|reflexivity|reflexivity].
    rewrite Hw, str_app_nil_l. constructor. constructor. }
  split; [exact Hr|].
  rewrite <- Hd in Hr.
  destruct (loop_head_resume SplitForRead _ _ _ _ _ _ _ Hh) as (fuel & Hf & E).
  destruct fuel as [|fuel]; [lia|].
  rewrite (read_lines_eof SplitForRead fuel _ _ _ jn ps w _ Hr) in E.
  eexists. split; [|split].
  - apply (Run_names SplitForRead arg argv w0 1%Z ps _ Hn Ha).
    unfold read_fields, bind, get_world, get_max_results. rewrite Ha. exact E.
  - eapply loop_head_capped; [apply default_names_length | exact Hh].
  - apply fold_bind_names_bound.
Qed.

(** The stream [":rest"] with delimiter [':'] and the names [a] and [b]:
    the colon is consumed, ["rest"] stays unread, the status is 1 and both
    names are bound to the empty string. *)
Lemma read_leading_delimiter_stops_witness :
  ReadLineFromStdin (Some (chr ":")) (pipe [Data ":rest"])
    = Some (Ok EmptyString, pipe [Data "rest"]) /\
  exists m',
    Run (split_model ifs_default) (ReadArgs false None None (Some ":")) ["a"; "b"]
      (pipe [Data ":rest"])
      = Some (Ok 1%Z, set_mem m' (pipe [Data "rest"])) /\
    names_bound ["a"; "b"] [] ∅ m' /\
    m' !! "a" = Some (Str "") /\ m' !! "b" = Some (Str "").
Proof.
  assert (Hlast_a : forall j, 0 < j -> ["a"; "b"] !! j <> Some "a").
  { intros [|[|j]] Hj; [lia | discriminate | discriminate]. }
  assert (Hlast_b : forall j, 1 < j -> ["a"; "b"] !! j <> Some "b").
  { intros [|[|j]] Hj; [lia | lia | discriminate]. }
  destruct (read_leading_delimiter_stops (split_model ifs_default)
              (ReadArgs false None None (Some ":")) ["a"; "b"] ["a"; "b"]
              (pipe [Data ":rest"]) false [] (pipe [Data ":rest"]) ":" "rest" [])
    as (HL & m' & HR & _ & Hb).
  - reflexivity.
  - reflexivity.
  - left. split; [reflexivity | discriminate].
  - reflexivity.
  - apply head_first.
  - reflexivity.
  - split; [exact HL|]. exists m'. split; [exact HR|]. split; [exact Hb|].
    destruct Hb as (_ & Hempty & _). split.
    + apply (Hempty 0 "a" eq_refl Hlast_a eq_refl).
    + apply (Hempty 1 "b" eq_refl Hlast_b eq_refl).
Defined.

(** The stream [":rest"] with delimiter [':']: status 1, both names empty,
    ["rest"] still in the stream. *)
Example read_leading_delimiter_rest :
  Run (split_model ifs_default) (ReadArgs false None None (Some ":")) ["a"; "b"]
    (pipe [Data ":rest"])
  = Some (Ok 1%Z, World [Data "rest"] false attrs0 []
                    (<["b" := Str ""]> (<["a" := Str ""]> ∅))).
Proof. reflexivity. Qed.

(** *** The colon scenarios *)

(** C1 (amended): on the stream ["x:y:z\n"] with names [a] and [b], a custom
    delimiter [':'] makes the reader stop at the first colon: [parts] is
    [["x"]], [a] is bound to ["x"], [b] to the empty string, and ["y:z\n"]
    stays in the stream.  [parts = ["x"; "y:z"]], status 0, [a = "x"] and
    [b = "y:z"] is the outcome when no custom delimiter is set and the colon
    is the field separator of the span classifier. *)
Theorem read_colon_line (SplitForRead : string -> bool -> list span) :
  SplitForRead "x" true = [(Black, 1)] ->
  SplitForRead "x:y:z" true
    = [(Black, 1); (Delim, 2); (Black, 3); (Delim, 4); (Black, 5)] ->
  (exists status,
     read_fields SplitForRead (ReadArgs false None None (Some ":")) ["a"; "b"]
       (pipe [Data ("x:y:z" +:+ chr NL)])
       = Some (Ok (status, ["x"]), pipe [Data ("y:z" +:+ chr NL)]) /\
     Run SplitForRead (ReadArgs false None None (Some ":")) ["a"; "b"]
       (pipe [Data ("x:y:z" +:+ chr NL)])
       = Some (Ok status,
               World [Data ("y:z" +:+ chr NL)] false attrs0 []
                 (<["b" := Str ""]> (<["a" := Str "x"]> ∅)))) /\
  read_fields SplitForRead (ReadArgs false None None None) ["a"; "b"]
    (pipe [Data ("x:y:z" +:+ chr NL)])
    = Some (Ok (0%Z, ["x"; "y:z"]), pipe []) /\
  Run SplitForRead (ReadArgs false None None None) ["a"; "b"]
    (pipe [Data ("x:y:z" +:+ chr NL)])
    = Some (Ok 0%Z,
            World [] false attrs0 [] (<["b" := Str "y:z"]> (<["a" := Str "x"]> ∅))).
Proof.
  intros Hx Hxyz.
  pose (w0 := pipe [Data ("x:y:z" +:+ chr NL)]).
  assert (HA : read_fields SplitForRead (ReadArgs false None None (Some ":"))
                 (default_names ["a"; "b"]) w0
               = Some (Ok (line_status "x", ["x"]), pipe [Data ("y:z" +:+ chr NL)])).
  { apply (Run_last_line SplitForRead (ReadArgs false None None (Some ":"))
             ["a"; "b"] w0 false [] w0 "x" (pipe [Data ("y:z" +:+ chr NL)])
             false ["x"]); try reflexivity.
    - apply head_first.
    - discriminate.
    - change (stripped "x") with "x". cbn [negb arg_r]. rewrite Hx. reflexivity. }
  assert (HB : read_fields SplitForRead (ReadArgs false None None None)
                 (default_names ["a"; "b"]) w0
               = Some (Ok (line_status ("x:y:z" +:+ chr NL), ["x"; "y:z"]), pipe [])).
  { apply (Run_last_line SplitForRead (ReadArgs false None None None)
             ["a"; "b"] w0 false [] w0 ("x:y:z" +:+ chr NL) (pipe [])
             true ["x"; "y:z"]); try reflexivity.
    - apply head_first.
    - discriminate.
    - change (stripped ("x:y:z" +:+ chr NL)) with "x:y:z". cbn [negb arg_r].
      rewrite Hxyz. reflexivity. }
  pose proof (Run_names SplitForRead (ReadArgs false None None (Some ":"))
                ["a"; "b"] w0 _ _ _ eq_refl eq_refl HA) as RA.
  pose proof (Run_names SplitForRead (ReadArgs false None None None)
                ["a"; "b"] w0 _ _ _ eq_refl eq_refl HB) as RB.
  subst w0.
  split; [exists (line_status "x"); split|split].
  - exact HA.
  - rewrite RA. reflexivity.
  - exact HB.
  - rewrite RB. reflexivity.
Qed.

Lemma read_colon_line_witness :
  split_model (ifs_char ":") "x" true = [(Black, 1)] /\
  split_model (ifs_char ":") "x:y:z" true
    = [(Black, 1); (Delim, 2); (Black, 3); (Delim, 4); (Black, 5)] /\
  Run (split_model (ifs_char ":")) (ReadArgs false None None None) ["a"; "b"]
    (pipe [Data ("x:y:z" +:+ chr NL)])
    = Some (Ok 0%Z,
            World [] false attrs0 [] (<["b" := Str "y:z"]> (<["a" := Str "x"]> ∅))).
Proof.
  split; [reflexivity|]. split; [reflexivity|].
  exact (proj2 (proj2 (read_colon_line (split_model (ifs_char ":")) eq_refl eq_refl))).
Defined.

(** C1, as stated, fails: with the custom delimiter [':'] the run reads only
    ["x"], whether the classifier splits on white space or on colons. *)
Lemma read_colon_delimiter_one_part :
  read_fields (split_model ifs_default) (ReadArgs false None None (Some ":"))
    ["a"; "b"] (pipe [Data ("x:y:z" +:+ chr NL)])
    = Some (Ok (1%Z, ["x"]), pipe [Data ("y:z" +:+ chr NL)]) /\
  Run (split_model ifs_default) (ReadArgs false None None (Some ":"))
    ["a"; "b"] (pipe [Data ("x:y:z" +:+ chr NL)])
    = Some (Ok 1%Z,
            World [Data ("y:z" +:+ chr NL)] false attrs0 []
              (<["b" := Str ""]> (<["a" := Str "x"]> ∅))) /\
  read_fields (split_model (ifs_char ":")) (ReadArgs false None None (Some ":"))
    ["a"; "b"] (pipe [Data ("x:y:z" +:+ chr NL)])
    = Some (Ok (1%Z, ["x"]), pipe [Data ("y:z" +:+ chr NL)]) /\
  ~ (exists w',
       read_fields (split_model ifs_default) (ReadArgs false None None (Some ":"))
         ["a"; "b"] (pipe [Data ("x:y:z" +:+ chr NL)])
       = Some (Ok (0%Z, ["x"; "y:z"]), w')).
Proof.
  split; [reflexivity|]. split; [reflexivity|]. split; [reflexivity|].
  intros [w' H]. discriminate H.
Qed.

(** *** The exit status *)

(** The status of a run is the status of its last line: 0 when the text the
    reader returned ends with a newline, 1 otherwise.  A line that the custom
    delimiter ended is returned without it and gets status 1. *)
Lemma Run_status_custom_delimiter
  (SplitForRead : string -> bool -> list span)
  (arg : read_args) (argv : list string) (w0 : world)
  (jn : bool) (ps : list string) (w : world)
  (d : ascii) (pre : string) (fd' : list event) (jn' : bool) (ps' : list string) :
  arg_n arg = None -> truthy (arg_a arg) = false ->
  get_delim_char arg = Some (chr d) ->
  loop_head SplitForRead (negb (arg_r arg)) (length (default_names argv))
    (get_delim_char arg) w0 jn ps w ->
  reads (stdin_fd w) (pre +:+ chr d) fd' ->
  pre <> EmptyString -> free_of d pre = true -> free_of NL pre = true ->
  _AppendParts pre (SplitForRead pre (negb (arg_r arg)))
    (length (default_names argv)) jn ps = Ok (true, jn', ps') ->
  exists m',
    Run SplitForRead arg argv w0 = Some (Ok 1%Z, set_mem m' (set_stdin fd' w)).
Proof.
  intros Hn Ha Hd Hh Hr Hne Hfd Hfn Hap.
  assert (Hl : ReadLineFromStdin (get_delim_char arg) w
               = Some (Ok pre, set_stdin fd' w)).
  { rewrite Hd. now apply ReadLine_stops_at_delim. }
  assert (He : endswith pre (chr NL) = false) by now apply free_of_endswith.
  assert (Hs : stripped pre = pre) by (unfold stripped; now rewrite He).
  assert (Hst : line_status pre = 1%Z) by (unfold line_status; now rewrite He).
  destruct (Run_last_line SplitForRead arg argv w0 jn ps w pre _ jn' ps'
              Hn Ha Hh Hl Hne) as (_ & m' & E & _).
  { now rewrite Hs. }
  exists m'. now rewrite <- Hst.
Qed.

(** C2: the run [read -d : a] on the stream ["x:y\n"].  The reader stops at
    the colon, the configured line terminator, well before the end of the
    stream, and [Read.Run] returns status 1, not 0. *)
Theorem read_delimiter_found_status_1 :
  ReadLineFromStdin (Some ":") (pipe [Data ("x:y" +:+ chr NL)])
    = Some (Ok "x", pipe [Data ("y" +:+ chr NL)]) /\
  Run (split_model ifs_default) (ReadArgs false None None (Some ":")) ["a"]
    (pipe [Data ("x:y" +:+ chr NL)])
    = Some (Ok 1%Z,
            World [Data ("y" +:+ chr NL)] false attrs0 [] (<["a" := Str "x"]> ∅)).
Proof. split; reflexivity. Qed.

(** ** Termination

    Every loop is started with enough fuel: a run always ends, with a status
    or with an exception. *)

Lemma posix_read_total n w :
  exists res fd', posix_read n w = Some (res, set_stdin fd' w) /\
    (forall buf, res = Ok buf -> String.eqb buf EmptyString = false -> 0 < len buf).
Proof.
  unfold posix_read. destruct (stdin_fd w) as [|[s|] rest] eqn:E.
  - exists (Ok EmptyString), []. rewrite <- E, set_stdin_same.
    split; [reflexivity|]. intros buf [= <-]. discriminate.
  - destruct (len s <=? n); eexists _, _; (split; [reflexivity|]);
      intros buf [= <-] H; now apply len_nonempty.
  - exists (Raise OSError), rest. split; [reflexivity | discriminate].
Qed.

Lemma read_block_loop_total : forall fuel n s w,
  Z.to_nat n <= fuel ->
  exists res w', read_block_loop fuel n s w = Some (res, w').
Proof.
  induction fuel as [|fuel IH]; intros n s w Hf.
  - rewrite read_block_loop_zero by lia. eauto.
  - destruct (Z.leb_spec n 0) as [Hn|Hn].
    { rewrite read_block_loop_zero by exact Hn. eauto. }
    cbn [read_block_loop]. apply Z.ltb_lt in Hn as Hn'. rewrite Hn'. unfold bind.
    destruct (posix_read_total (Z.to_nat n) w) as ([buf|e] & fd' & -> & Hpos).
    + destruct (String.eqb buf EmptyString) eqn:Eb.
      * unfold ret. eauto.
      * specialize (Hpos buf eq_refl Eb). apply IH. lia.
    + eauto.
Qed.

Section Termination.

Variable SplitForRead : string -> bool -> list span.

Lemma read_lines_total esc k delim : forall fuel jn ps w,
  fd_size (stdin_fd w) < fuel ->
  exists res w', read_lines SplitForRead fuel esc k delim jn ps w = Some (res, w').
Proof.
  induction fuel as [|fuel IH]; intros jn ps w Hf; [lia|].
  destruct (ReadLineFromStdin_total delim w) as ([line|e] & fd' & Er & Hle & Hlt).
  - destruct (String.eqb line EmptyString) eqn:El.
    + apply String.eqb_eq in El. subst line.
      rewrite (read_lines_eof SplitForRead fuel esc k delim jn ps w _ Er). eauto.
    + assert (Hne : line <> EmptyString).
      { intros ->. discriminate. }
      destruct (_AppendParts (stripped line) (SplitForRead (stripped line) esc) k jn ps)
        as [[[done jn'] ps']|e] eqn:Ea.
      * rewrite (read_lines_step SplitForRead fuel esc k delim jn ps w line _
                   done jn' ps' Er Hne Ea).
        destruct done; [eauto|]. apply IH. rewrite stdin_set_stdin.
        specialize (Hlt line eq_refl Hne). lia.
      * cbn [read_lines]. unfold bind. rewrite Er, El.
        unfold stripped in Ea. destruct (endswith line (chr NL)); rewrite Ea;
          unfold raise; eauto.
  - rewrite (read_lines_raise SplitForRead fuel esc k delim jn ps w e _ Er). eauto.
Qed.

Lemma bind_names_total names ps : forall range w,
  exists res w', bind_names names ps range w = Some (res, w').
Proof.
  induction range as [|i range IH]; intros w; cbn [bind_names].
  - unfold ret. eauto.
  - destruct (names !! i); [|unfold raise; eauto].
    unfold bind, SetStringDynamic, set_var. apply IH.
Qed.

Lemma Run_total arg argv w :
  exists res w', Run SplitForRead arg argv w = Some (res, w').
Proof.
  unfold Run. destruct (arg_n arg) as [n|].
  - unfold read_n_bytes, bind, isatty. destruct (stdin_isatty w) eqn:Et.
    + unfold tcgetattr, try_finally, bind. unfold tcsetattr at 1.
      match goal with
      | |- context [read_tty_loop ?f ?n ?s ?w1] =>
          destruct (read_tty_loop_total f n s w1 (Nat.le_refl _))
            as (res & fd' & -> & [[s' ->]| ->])
      end; unfold tcsetattr, SetLocalString, set_var, ret; cbn; eauto.
    + destruct (read_block_loop_total (Z.to_nat n) n EmptyString w (Nat.le_refl _))
        as ([s|e] & w' & ->); unfold SetLocalString, set_var, ret; cbn; eauto.
  - unfold bind at 1. unfold read_fields, bind at 1, get_world.
    destruct (read_lines_total (negb (arg_r arg))
                (get_max_results arg (default_names argv)) (get_delim_char arg)
                (S (fd_size (stdin_fd w))) false [] w (Nat.lt_succ_diag_r _))
      as ([[status ps]|e] & w' & ->); [|eauto].
    unfold bind. destruct (truthy (arg_a arg)).
    + unfold SetArrayDynamic, set_var, ret. eauto.
    + destruct (bind_names_total (default_names argv) ps
                  (seq 0 (get_max_results arg (default_names argv))) w')
        as ([[]|e] & w'' & ->); unfold ret; eauto.
Qed.

End Termination.

(** ** Further properties of the field assembler *)

(** What one iteration can do to [parts]. *)
Lemma loop_body_parts s k st sp st' :
  loop_body s k st sp = Ok st' ->
  parts st' = parts st \/
  parts st' = parts st ++ [slice s (start_index st) (snd sp)] \/
  add_to_last (parts st) (slice s (start_index st) (snd sp)) = Ok (parts st').
Proof.
  unfold loop_body.
  destruct (dispatch_span s st sp) as [st1|] eqn:E; [|discriminate].
  intros [= <-]. cbn [parts]. unfold dispatch_span in E.
  destruct sp as [[| |] e]; cbn [snd].
  - destruct (join_next st && negb (length (parts st) =? 0)).
    + destruct (add_to_last (parts st) _) as [p|] eqn:Ea; [|discriminate].
      injection E as <-. right; right. reflexivity.
    + injection E as <-. right; left. reflexivity.
  - destruct (join_next st).
    + destruct (add_to_last (parts st) _) as [p|] eqn:Ea; [|discriminate].
      injection E as <-. right; right. reflexivity.
    + injection E as <-. left. reflexivity.
  - destruct (last_span_was_black st); injection E as <-; left; reflexivity.
Qed.

Lemma add_to_last_shape l a x tail t ps' :
  add_to_last (l ++ (a +:+ x) :: tail) t = Ok ps' ->
  exists x' tail', ps' = l ++ (a +:+ x') :: tail'.
Proof.
  destruct tail as [|b0 tail0].
  - rewrite add_to_last_snoc. intros [= <-].
    exists (x +:+ t), []. now rewrite str_app_assoc.
  - destruct (exists_last (l := b0 :: tail0)) as (tl & b & ->); [discriminate|].
    replace (l ++ (a +:+ x) :: tl ++ [b]) with ((l ++ (a +:+ x) :: tl) ++ [b])
      by (now rewrite <- app_assoc).
    rewrite add_to_last_snoc. intros [= <-].
    exists x, (tl ++ [b +:+ t]). now rewrite <- app_assoc.
Qed.

Lemma for_spans_shape s k spans l a : forall st st',
  for_spans s k spans st = Ok st' ->
  (exists x tail, parts st = l ++ (a +:+ x) :: tail) ->
  exists x tail, parts st' = l ++ (a +:+ x) :: tail.
Proof.
  induction spans as [|sp spans IH]; intros st st'; cbn [for_spans].
  - intros [= <-] H. exact H.
  - destruct (loop_body s k st sp) as [st1|] eqn:E; [|discriminate].
    intros E2 (x & tail & Hp). apply (IH st1 st' E2).
    destruct (loop_body_parts s k st sp st1 E) as [H|[H|H]].
    + rewrite H. eauto.
    + rewrite H, Hp. exists x, (tail ++ [slice s (start_index st) (snd sp)]).
      now rewrite <- app_assoc.
    + rewrite Hp in H. now apply add_to_last_shape in H.
Qed.

Lemma for_spans_length s k spans : forall st st',
  for_spans s k spans st = Ok st' -> length (parts st) <= length (parts st').
Proof.
  induction spans as [|sp spans IH]; intros st st'; cbn [for_spans].
  - intros [= <-]. lia.
  - destruct (loop_body s k st sp) as [st1|] eqn:E; [|discriminate].
    intros E2. apply IH in E2.
    destruct (loop_body_parts s k st sp st1 E) as [H|[H|H]].
    + rewrite H in E2. exact E2.
    + rewrite H, length_app in E2. simpl in E2. lia.
    + apply add_to_last_length in H as [H _]. lia.
Qed.

(** X1: a call of [_AppendParts] whose entry state has [join_next] false or
    [parts] non-empty returns, never shortens [parts], leaves every part
    before the last entry part as it was, and at most appends text to that
    last entry part. *)
Theorem AppendParts_keeps_fields s spans k jn ps :
  jn = false \/ ps <> [] ->
  exists done jn' ps',
    _AppendParts s spans k jn ps = Ok (done, jn', ps') /\
    length ps <= length ps' /\
    (forall l a, ps = l ++ [a] -> exists x tail, ps' = l ++ (a +:+ x) :: tail).
Proof.
  intros Hin.
  assert (H0 : join_ok (LoopState 0 false jn ps)).
  { split; simpl; [|discriminate]. destruct Hin; congruence. }
  destruct (for_spans_join_ok s k spans _ H0) as (st & E & _).
  unfold _AppendParts. rewrite E. eexists _, _, _. split; [reflexivity|]. split.
  - apply for_spans_length in E. exact E.
  - intros l a ->. apply (for_spans_shape s k spans l a _ _ E).
    exists EmptyString, []. cbn [parts]. now rewrite str_app_nil_r.
Qed.

Lemma AppendParts_keeps_fields_witness :
  exists done jn' ps',
    _AppendParts "c d" [(Black, 1); (Delim, 2); (Black, 3)] 0 true ["a"; "b"]
      = Ok (done, jn', ps') /\
    length ["a"; "b"] <= length ps' /\
    (forall l a, ["a"; "b"] = l ++ [a] -> exists x tail, ps' = l ++ (a +:+ x) :: tail).
Proof.
  apply (AppendParts_keeps_fields "c d" [(Black, 1); (Delim, 2); (Black, 3)] 0
           true ["a"; "b"]).
  right. discriminate.
Defined.

(** Without a cap and without escapes every content span opens a part. *)
Lemma for_spans_unbounded s pre : forall st,
  escape_free pre = true -> join_next st = false ->
  exists b, for_spans s 0 pre st =
    Ok (LoopState (end_of (start_index st) pre) b false
          (parts st ++ black_texts s (start_index st) pre)).
Proof.
  induction pre as [|[kind e] pre IH]; intros st Hef Hjn.
  - exists (last_span_was_black st). simpl. rewrite app_nil_r.
    destruct st; simpl in *; now subst.
  - unfold escape_free in Hef. cbn [forallb] in Hef.
    apply andb_true_iff in Hef as [Hk Hef].
    rewrite end_of_cons. cbn [snd].
    destruct kind; [| |discriminate].
    + cbn [for_spans]. unfold loop_body, dispatch_span. rewrite Hjn. cbn [andb].
      cbn [parts join_next last_span_was_black snd Nat.eqb negb andb].
      edestruct (IH (LoopState e true false (parts st ++ [slice s (start_index st) e])))
        as (b & E); [exact Hef | reflexivity |].
      exists b. rewrite E. cbn [parts start_index black_texts].
      now rewrite <- app_assoc.
    + cbn [for_spans]. unfold loop_body, dispatch_span. rewrite Hjn.
      cbn [parts join_next last_span_was_black snd Nat.eqb negb andb].
      edestruct (IH (LoopState e false false (parts st))) as (b & E);
        [exact Hef | reflexivity |].
      exists b. rewrite E. reflexivity.
Qed.

(** X2: plain splitting.  On an escape-free span sequence, entered with
    [join_next] false, when there is no cap ([max_results = 0]) or the
    content spans do not fill it, [_AppendParts] appends exactly the texts of
    the content spans, one part per span and in order, drops every
    separator, and returns [done = True] with [join_next] still false. *)
Theorem AppendParts_plain_split s spans k ps :
  escape_free spans = true ->
  k = 0 \/ length ps + count_black spans < k ->
  _AppendParts s spans k false ps
    = Ok (true, false, ps ++ black_texts s 0 spans).
Proof.
  intros Hef Hk. unfold _AppendParts.
  assert (exists b, for_spans s k spans (LoopState 0 false false ps) =
            Ok (LoopState (end_of 0 spans) b false (ps ++ black_texts s 0 spans)))
    as (b & ->).
  { destruct Hk as [->|Hk].
    - apply (for_spans_unbounded s spans (LoopState 0 false false ps) Hef eq_refl).
    - apply (for_spans_below s k spans (LoopState 0 false false ps) Hef eq_refl Hk). }
  now rewrite escape_free_done.
Qed.

Lemma AppendParts_plain_split_witness :
  _AppendParts "ab  cd e" [(Black, 2); (Delim, 4); (Black, 6); (Delim, 7); (Black, 8)]
    0 false [] = Ok (true, false, ["ab"; "cd"; "e"]).
Proof.
  exact (AppendParts_plain_split "ab  cd e"
           [(Black, 2); (Delim, 4); (Black, 6); (Delim, 7); (Black, 8)] 0 []
           eq_refl (or_introl eq_refl)).
Defined.

Lemma loop_body_black s k st e st' :
  loop_body s k st (Black, e) = Ok st' -> last_span_was_black st' = true.
Proof.
  unfold loop_body, dispatch_span.
  destruct (join_next st && negb (length (parts st) =? 0)).
  - destruct (add_to_last (parts st) _); [|discriminate]. now intros [= <-].
  - now intros [= <-].
Qed.

(** After a content span a Backslash span sets [join_next]. *)
Lemma loop_body_backslash s k st e :
  last_span_was_black st = true ->
  exists b, loop_body s k st (Backslash, e) = Ok (LoopState e b true (parts st)).
Proof.
  intros Hb. unfold loop_body, dispatch_span. rewrite Hb.
  cbn [parts join_next last_span_was_black snd].
  exists false. now destruct (negb (k =? 0) && (k <=? length (parts st))).
Qed.

(** X3: line continuation.  When the spans of a line end with a content span
    followed by a Backslash span, [_AppendParts] returns [done = False] with
    [join_next] set over a non-empty [parts]; the next call, on the following
    line, then appends the text of that line's first span, content or
    separator, to the last part instead of opening a new one, and leaves the
    parts before it as they were. *)
Theorem AppendParts_continuation s1 pre e1 e2 k jn ps :
  jn = false \/ ps <> [] ->
  exists l a,
    _AppendParts s1 (pre ++ [(Black, e1); (Backslash, e2)]) k jn ps
      = Ok (false, true, l ++ [a]) /\
    forall s2 kind e3 rest, kind <> Backslash ->
      exists done jn2 x tail,
        _AppendParts s2 ((kind, e3) :: rest) k true (l ++ [a])
          = Ok (done, jn2, l ++ (a +:+ slice s2 0 e3 +:+ x) :: tail).
Proof.
  intros Hin.
  assert (H0 : join_ok (LoopState 0 false jn ps)).
  { split; simpl; [|discriminate]. destruct Hin; congruence. }
  destruct (for_spans_join_ok s1 k pre _ H0) as (st0 & E0 & Hok0).
  destruct (loop_body_join_ok s1 k st0 (Black, e1) Hok0) as (st1 & E1 & Hok1).
  pose proof (loop_body_black _ _ _ _ _ E1) as Hb.
  destruct (loop_body_backslash s1 k st1 e2 Hb) as (b & E2).
  assert (Hne : parts st1 <> []) by (apply Hok1; exact Hb).
  destruct (exists_last Hne) as (l & a & Hp).
  exists l, a. split.
  - unfold _AppendParts. rewrite for_spans_app, E0. cbn [for_spans].
    rewrite E1, E2. cbn [join_next parts]. rewrite Hp.
    assert (Hd : compute_done (pre ++ [(Black, e1); (Backslash, e2)]) = false).
    { apply compute_done_false. exists (pre ++ [(Black, e1)]), e2.
      now rewrite <- app_assoc. }
    now rewrite Hd.
  - intros s2 kind e3 rest Hk.
    assert (E3 : exists b3 jn3,
               loop_body s2 k (LoopState 0 false true (l ++ [a])) (kind, e3)
               = Ok (LoopState e3 b3 jn3 (l ++ [a +:+ slice s2 0 e3]))).
    { unfold loop_body, dispatch_span. cbn [join_next parts start_index].
      assert (Hn : negb (length (l ++ [a]) =? 0) = true).
      { rewrite length_app. simpl. now rewrite Nat.add_1_r. }
      destruct kind; [| |congruence].
      - rewrite Hn. cbn [andb]. rewrite add_to_last_snoc.
        cbn [parts join_next last_span_was_black snd]. eauto.
      - rewrite add_to_last_snoc.
        cbn [parts join_next last_span_was_black snd]. eauto. }
    destruct E3 as (b3 & jn3 & E3).
    assert (Hok3 : join_ok (LoopState e3 b3 jn3 (l ++ [a +:+ slice s2 0 e3]))).
    { split; intros _; apply snoc_not_nil. }
    destruct (for_spans_join_ok s2 k rest _ Hok3) as (st4 & E4 & _).
    destruct (for_spans_shape s2 k rest l (a +:+ slice s2 0 e3) _ _ E4)
      as (x & tail & Hp4).
    { exists EmptyString, []. cbn [parts]. now rewrite str_app_nil_r. }
    unfold _AppendParts. cbn [for_spans]. rewrite E3, E4.
    eexists _, _, x, tail. rewrite Hp4, str_app_assoc. reflexivity.
Qed.

Lemma AppendParts_continuation_witness :
  exists l a,
    _AppendParts "ab cd\" ([(Black, 2); (Delim, 3)] ++ [(Black, 5); (Backslash, 6)])
      0 false [] = Ok (false, true, l ++ [a]) /\
    forall s2 kind e3 rest, kind <> Backslash ->
      exists done jn2 x tail,
        _AppendParts s2 ((kind, e3) :: rest) 0 true (l ++ [a])
          = Ok (done, jn2, l ++ (a +:+ slice s2 0 e3 +:+ x) :: tail).
Proof.
  apply (AppendParts_continuation "ab cd\" [(Black, 2); (Delim, 3)] 5 6 0 false []).
  left. reflexivity.
Defined.

(** The two lines ["ab cd\"] and ["ef g"]: the parts are [ab], [cdef], [g]. *)
Example AppendParts_continuation_lines :
  _AppendParts "ab cd\" [(Black, 2); (Delim, 3); (Black, 5); (Backslash, 6)]
    0 false [] = Ok (false, true, ["ab"; "cd"]) /\
  _AppendParts "ef g" [(Black, 2); (Delim, 3); (Black, 4)] 0 true ["ab"; "cd"]
    = Ok (true, false, ["ab"; "cdef"; "g"]).
Proof. split; reflexivity. Qed.

(** ** Further properties of the line reader *)

Lemma fd_bytes_after_byte s rest :
  fd_bytes (after_byte s rest) = s +:+ fd_bytes rest.
Proof. destruct s; reflexivity. Qed.

Lemma reads_bytes fd pre fd' :
  reads fd pre fd' -> fd_bytes fd = pre +:+ fd_bytes fd'.
Proof.
  induction 1 as [fd|c s rest pre fd' Hr IH]; [reflexivity|].
  cbn [fd_bytes]. rewrite !str_app_cons. f_equal.
  now rewrite <- IH, fd_bytes_after_byte.
Qed.

Lemma at_eof_bytes fd1 fd' : at_eof fd1 fd' -> fd_bytes fd1 = fd_bytes fd'.
Proof. now destruct 1. Qed.

Lemma eq_delim_chr c delim :
  eq_delim (chr c) delim = true -> delim = Some (chr c).
Proof.
  destruct delim as [ds|]; [|discriminate]. cbn [eq_delim].
  intros H. apply String.eqb_eq in H. now subst.
Qed.

Lemma read_line_loop_outcome delim : forall fuel chars w,
  fd_size (stdin_fd w) < fuel ->
  exists res fd', read_line_loop fuel delim chars w = Some (res, set_stdin fd' w) /\
    match res with
    | Ok line =>
        exists tail, line = join chars +:+ tail /\
          line_outcome delim (stdin_fd w) tail fd'
    | Raise e =>
        e = OSError /\ exists pre, reads (stdin_fd w) pre (Fail :: fd')
    end.
Proof.
  induction fuel as [|fuel IH]; intros chars w Hf; [lia|].
  cbn [read_line_loop]. unfold bind.
  read1_cases w E.
  - cbn. exists (Ok (join chars)), (stdin_fd w). rewrite set_stdin_same.
    split; [reflexivity|]. exists EmptyString. rewrite str_app_nil_r.
    split; [reflexivity|]. right; right. split; [reflexivity|].
    exists (stdin_fd w). split; [constructor|]. rewrite E. constructor.
  - exists (Raise OSError), rest. split; [reflexivity|]. split; [reflexivity|].
    exists EmptyString. rewrite E. constructor.
  - cbn. exists (Ok (join chars)), rest. split; [reflexivity|].
    exists EmptyString. rewrite str_app_nil_r. split; [reflexivity|].
    right; right. split; [reflexivity|].
    exists (stdin_fd w). split; [constructor|]. rewrite E. constructor.
  - rewrite chr_eqb_nil. pose proof (fd_size_after_byte c s rest) as Hlt.
    rewrite <- E in Hlt.
    destruct (eq_delim (chr c) delim) eqn:Ed.
    { apply eq_delim_chr in Ed.
      exists (Ok (join chars)), (after_byte s rest). split; [reflexivity|].
      exists EmptyString. rewrite str_app_nil_r. split; [reflexivity|].
      right; left. exists c. repeat split; [exact Ed|].
      rewrite E, str_app_nil_l. constructor. constructor. }
    rewrite chr_eqb. destruct (Ascii.eqb c NL) eqn:En.
    { apply Ascii.eqb_eq in En. subst c.
      exists (Ok (join (chars ++ [chr NL]))), (after_byte s rest).
      split; [reflexivity|]. exists (chr NL). rewrite join_snoc.
      split; [reflexivity|]. left. exists EmptyString.
      repeat split; [exact Ed|]. rewrite E. constructor. constructor. }
    destruct (IH (chars ++ [chr c]) (set_stdin (after_byte s rest) w))
      as (res & fd' & Er & Hres).
    { rewrite stdin_set_stdin. lia. }
    rewrite stdin_set_stdin in Hres. rewrite set_stdin_twice in Er.
    exists res, fd'. split; [exact Er|]. destruct res as [line|e].
    + destruct Hres as (tail & -> & Ho). exists (String c tail).
      split; [now rewrite join_snoc, str_app_assoc|].
      rewrite E. destruct Ho as [(pre & -> & Hp & Hd & Hr)|[(d & -> & Hn & Hd & Hr)|(Hn & fd1 & Hr & He)]].
      * left. exists (String c pre). rewrite str_app_cons.
        repeat split; [simpl; now rewrite En, Hp | exact Hd | now constructor].
      * right; left. exists d. cbn [eq_delim] in Ed. rewrite chr_eqb in Ed.
        repeat split; [simpl; now rewrite En, Hn | simpl; now rewrite Ed, Hd |].
        rewrite str_app_cons. now constructor.
      * right; right. split; [simpl; now rewrite En, Hn|].
        exists fd1. split; [now constructor | exact He].
    + destruct Hres as (-> & pre & Hr). split; [reflexivity|].
      exists (String c pre). rewrite E. now constructor.
Qed.


(** ** Further properties of the orchestrator *)

Lemma endswith_true_nonempty b d : endswith b (chr d) = true -> b <> EmptyString.
Proof. intros H ->. discriminate. Qed.

Lemma endswith_app a b d :
  endswith b (chr d) = true -> endswith (a +:+ b) (chr d) = true.
Proof.
  intros H. induction a as [|c a IH]; [exact H|].
  rewrite str_app_cons. destruct (a +:+ b) as [|c2 s2] eqn:E.
  - destruct a; [|discriminate]. rewrite str_app_nil_l in E.
    now apply endswith_true_nonempty in H.
  - now rewrite endswith_cons.
Qed.

(** What a returned line has taken from the descriptor. *)
Lemma ReadLine_consumes delim w :
  exists res fd',
    ReadLineFromStdin delim w = Some (res, set_stdin fd' w) /\
    forall line, res = Ok line ->
      (line <> EmptyString -> fd_size fd' < fd_size (stdin_fd w)) /\
      exists dropped,
        fd_bytes (stdin_fd w) = line +:+ dropped +:+ fd_bytes fd' /\
        (endswith line (chr NL) = true -> dropped = EmptyString).
Proof.
  destruct (ReadLineFromStdin_total delim w) as (res & fd' & E & _ & Hlt).
  destruct (read_line_loop_outcome delim (S (fd_size (stdin_fd w))) [] w)
    as (res2 & fd2 & E2 & Hres); [lia|].
  change (read_line_loop (S (fd_size (stdin_fd w))) delim [] w)
    with (ReadLineFromStdin delim w) in E2.
  rewrite E in E2. injection E2 as <- <-.
  exists res, fd'. split; [exact E|]. intros line ->. split; [now apply Hlt|].
  destruct Hres as (tail & Hl & Ho). cbn [join] in Hl. rewrite str_app_nil_l in Hl.
  subst tail.
  destruct Ho as [(pre & -> & Hp & Hd & Hr)|[(d & -> & Hn & Hd & Hr)|(Hn & fd1 & Hr & He)]].
  - exists EmptyString. rewrite str_app_nil_l. split; [now apply reads_bytes | reflexivity].
  - exists (chr d). rewrite <- str_app_assoc. split; [now apply reads_bytes|].
    intros H. apply free_of_endswith in Hn. congruence.
  - exists EmptyString. rewrite str_app_nil_l. split; [|reflexivity].
    apply reads_bytes in Hr. apply at_eof_bytes in He. now rewrite Hr, He.
Qed.


Section RunProperties.

Variable SplitForRead : string -> bool -> list span.

(** The loop only touches the descriptor; it returns status 0 or 1, and
    status 0 only when the last byte it consumed is a newline. *)
Lemma read_lines_outcome esc k delim : forall fuel jn ps w,
  fd_size (stdin_fd w) < fuel ->
  exists res fd',
    read_lines SplitForRead fuel esc k delim jn ps w = Some (res, set_stdin fd' w) /\
    forall status ps', res = Ok (status, ps') ->
      (status = 0%Z \/ status = 1%Z) /\
      exists consumed,
        fd_bytes (stdin_fd w) = consumed +:+ fd_bytes fd' /\
        (status = 0%Z -> endswith consumed (chr NL) = true).
Proof.
  induction fuel as [|fuel IH]; intros jn ps w Hf; [lia|].
  destruct (ReadLine_consumes delim w) as ([line|e] & fd1 & Er & Hc).
  - destruct (Hc line eq_refl) as (Hlt & dropped & Hb & Hd).
    destruct (String.eqb line EmptyString) eqn:El.
    + apply String.eqb_eq in El. subst line.
      rewrite (read_lines_eof SplitForRead fuel esc k delim jn ps w _ Er).
      exists (Ok (1%Z, ps)), fd1. split; [reflexivity|].
      intros status ps' [= <- <-]. split; [now right|].
      exists dropped. rewrite str_app_nil_l in Hb. split; [exact Hb | discriminate].
    + assert (Hne : line <> EmptyString) by (intros ->; discriminate).
      destruct (_AppendParts (stripped line) (SplitForRead (stripped line) esc) k jn ps)
        as [[[done jn'] ps1]|e] eqn:Ea.
      * rewrite (read_lines_step SplitForRead fuel esc k delim jn ps w line _
                   done jn' ps1 Er Hne Ea).
        destruct done.
        { exists (Ok (line_status line, ps1)), fd1. split; [reflexivity|].
          intros status ps' [= <- <-]. unfold line_status.
          destruct (endswith line (chr NL)) eqn:Ee.
          - split; [now left|]. exists line. rewrite (Hd eq_refl) in Hb.
            split; [exact Hb | intros _; exact Ee].
          - split; [now right|]. exists (line +:+ dropped).
            rewrite str_app_assoc. split; [exact Hb | discriminate]. }
        destruct (IH jn' ps1 (set_stdin fd1 w)) as (res & fd2 & E2 & H2).
        { rewrite stdin_set_stdin. specialize (Hlt Hne). lia. }
        rewrite set_stdin_twice in E2. rewrite stdin_set_stdin in H2.
        exists res, fd2. split; [exact E2|].
        intros status ps' ->. destruct (H2 status ps' eq_refl) as (Hs & c2 & Hb2 & He2).
        split; [exact Hs|]. exists ((line +:+ dropped) +:+ c2).
        split; [now rewrite Hb, Hb2, !str_app_assoc|].
        intros H0. now apply endswith_app, He2.
      * exists (Raise e), fd1. split; [|discriminate].
        cbn [read_lines]. unfold bind. rewrite Er, El.
        unfold stripped in Ea. now destruct (endswith line (chr NL)); rewrite Ea.
  - rewrite (read_lines_raise SplitForRead fuel esc k delim jn ps w e _ Er).
    exists (Raise e), fd1. split; [reflexivity | discriminate].
Qed.

End RunProperties.

(** X5: in delimited mode, when [Read.Run] returns a status it is 0 or 1; the
    bytes it has consumed are a prefix of the stream, the rest of which is
    still in the descriptor; and status 0 is returned only when the last
    byte consumed is a newline. *)
Theorem Run_status_newline
  (SplitForRead : string -> bool -> list span)
  (arg : read_args) (argv : list string) (w : world) (status : Z) (w' : world) :
  arg_n arg = None ->
  Run SplitForRead arg argv w = Some (Ok status, w') ->
  (status = 0%Z \/ status = 1%Z) /\
  exists consumed,
    fd_bytes (stdin_fd w) = consumed +:+ fd_bytes (stdin_fd w') /\
    (status = 0%Z -> endswith consumed (chr NL) = true).
Proof.
  intros Hn. unfold Run. rewrite Hn. unfold bind at 1.
  unfold read_fields, bind at 1, get_world.
  destruct (read_lines_outcome SplitForRead (negb (arg_r arg))
              (get_max_results arg (default_names argv)) (get_delim_char arg)
              (S (fd_size (stdin_fd w))) false [] w (Nat.lt_succ_diag_r _))
    as ([[status1 ps1]|e] & fd' & -> & H); [|discriminate].
  specialize (H status1 ps1 eq_refl).
  unfold bind, get_max_results. destruct (truthy (arg_a arg)).
  - unfold SetArrayDynamic, set_var, ret. intros [= <- <-]. exact H.
  - rewrite bind_names_spec by (intros i Hi; apply in_seq in Hi; lia).
    unfold ret. intros [= <- <-]. exact H.
Qed.

Lemma Run_status_newline_witness :
  (0%Z = 0%Z \/ 0%Z = 1%Z) /\
  exists consumed,
    fd_bytes [Data "x y"; Data (String NL "rest")]
      = consumed +:+ fd_bytes [Data "rest"] /\
    (0%Z = 0%Z -> endswith consumed (chr NL) = true).
Proof.
  exact (Run_status_newline (split_model ifs_default)
           (ReadArgs false None None None) ["a"]
           (pipe [Data "x y"; Data (String NL "rest")]) 0%Z
           (World [Data "rest"] false attrs0 [] (<["a" := Str "x y"]> ∅))
           eq_refl eq_refl).
Defined.


(** *** Fixed-byte-count mode on a terminal *)

Lemma read_tty_loop_reads fd pre fd' :
  reads fd pre fd' ->
  forall w fuel n acc,
    stdin_fd w = fd -> (Z.of_nat (len pre) <= n)%Z ->
    read_tty_loop (len pre + fuel) n acc w
      = read_tty_loop fuel (n - Z.of_nat (len pre)) (acc +:+ pre) (set_stdin fd' w).
Proof.
  induction 1 as [fd|c s rest pre fd' Hr IH]; intros w fuel n acc Hw Hn.
  - subst fd. rewrite set_stdin_same, str_app_nil_r. cbn [len String.length Nat.add].
    now rewrite Z.sub_0_r.
  - change (len (String c pre) + fuel) with (S (len pre + fuel)).
    change (len (String c pre)) with (S (len pre)) in *.
    cbn [read_tty_loop].
    assert (Hp : (0 <? n)%Z = true) by (apply Z.ltb_lt; lia). rewrite Hp.
    unfold bind at 1. rewrite (posix_read1_byte c s rest w Hw).
    rewrite (IH (set_stdin (after_byte s rest) w) fuel (n - 1)%Z (acc +:+ chr c))
      by (try reflexivity; lia).
    rewrite set_stdin_twice, str_app_assoc. f_equal. lia.
Qed.

Lemma read_tty_loop_exhausted : forall fuel n acc w,
  stdin_fd w = [] -> Z.to_nat n <= fuel ->
  read_tty_loop fuel n acc w = Some (Ok acc, w).
Proof.
  induction fuel as [|fuel IH]; intros n acc w Hw Hf; cbn [read_tty_loop].
  - destruct (0 <? n)%Z eqn:En; [apply Z.ltb_lt in En; lia | reflexivity].
  - destruct (0 <? n)%Z eqn:En; [|reflexivity].
    apply Z.ltb_lt in En. unfold bind, posix_read. rewrite Hw.
    rewrite str_app_nil_r. apply IH; [exact Hw | lia].
Qed.

(** X7: fixed-byte-count mode on a terminal reads byte by byte.  When the
    descriptor delivers the bytes [s] and [s] has [N] bytes, or has fewer and
    the descriptor is then exhausted, [Read.Run] binds the first name (or
    [REPLY]) to [s], returns status 0, leaves the bytes after [s] in the
    descriptor and the saved terminal attributes in place, however the bytes
    are grouped into bursts. *)
Theorem Run_n_tty_bytes
  (SplitForRead : string -> bool -> list span)
  (r : bool) (n : Z) (a d : option string) (names : list string)
  (fd : list event) (attrs : termios_attrs) (log : list termios_attrs)
  (m : gmap string value) (s : string) (fd' : list event) :
  reads fd s fd' ->
  Z.of_nat (len s) = n \/ ((Z.of_nat (len s) < n)%Z /\ fd' = []) ->
  Run SplitForRead (ReadArgs r (Some n) a d) names (World fd true attrs log m)
    = Some (Ok 0%Z,
            World fd' true attrs (attrs :: disable_canonical attrs :: log)
              (<[List.hd "REPLY" names := Str s]> m)).
Proof.
  intros Hr Hn. unfold Run. cbn [arg_n].
  unfold read_n_bytes, bind, isatty, tcgetattr, try_finally.
  cbn [stdin_isatty tty_attrs]. unfold tcsetattr at 1.
  cbn [stdin_fd stdin_isatty tcsetattr_log mem].
  assert (Hfuel : Z.to_nat n = len s + (Z.to_nat n - len s)) by lia.
  rewrite Hfuel.
  rewrite (read_tty_loop_reads fd s fd' Hr) by (try reflexivity; lia).
  rewrite str_app_nil_l.
  assert (E : forall w1, stdin_fd w1 = fd' ->
            read_tty_loop (Z.to_nat n - len s) (n - Z.of_nat (len s)) s w1
            = Some (Ok s, w1)).
  { intros w1 Hw1. destruct Hn as [Hn|[Hn ->]].
    - replace (n - Z.of_nat (len s))%Z with 0%Z by lia.
      destruct (Z.to_nat n - len s); reflexivity.
    - apply read_tty_loop_exhausted; [exact Hw1 | lia]. }
  rewrite E by reflexivity.
  unfold tcsetattr, SetLocalString, set_var, ret, set_stdin.
  cbn [stdin_fd stdin_isatty tcsetattr_log mem tty_attrs].
  destruct names; reflexivity.
Qed.

Lemma Run_n_tty_bytes_witness :
  Run (split_model ifs_default) (ReadArgs false (Some 3%Z) None None) []
    (World [Data "a"; Data "bcd"] true attrs0 [] ∅)
  = Some (Ok 0%Z,
          World [Data "d"] true attrs0 [attrs0; disable_canonical attrs0]
            (<["REPLY" := Str "abc"]> ∅)).
Proof.
  apply (Run_n_tty_bytes (split_model ifs_default) false 3%Z None None []
           [Data "a"; Data "bcd"] attrs0 [] ∅ "abc" [Data "d"]).
  - repeat constructor.
  - left. reflexivity.
Defined.

(** A read of zero bytes ends the loop on a pipe but costs only one of the
    [N] iterations on a terminal. *)
Example read_n_zero_read_pipe_and_terminal :
  Run (split_model ifs_default) (ReadArgs false (Some 3%Z) None None) ["v"]
    (pipe [Data "a"; Data ""; Data "bc"])
  = Some (Ok 0%Z, World [Data "bc"] false attrs0 [] (<["v" := Str "a"]> ∅)) /\
  Run (split_model ifs_default) (ReadArgs false (Some 3%Z) None None) ["v"]
    (terminal [Data "a"; Data ""; Data "bc"])
  = Some (Ok 0%Z,
          World [Data "c"] true attrs0 [attrs0; disable_canonical attrs0]
            (<["v" := Str "ab"]> ∅)).
Proof. split; reflexivity. Qed.

(** *** One newline-terminated line *)

Lemma stripped_snoc text :
  stripped (text +:+ chr NL) = text /\ line_status (text +:+ chr NL) = 0%Z.
Proof.
  unfold stripped, line_status. now rewrite endswith_snoc, drop_last_snoc.
Qed.

Lemma snoc_nonempty text c : text +:+ chr c <> EmptyString.
Proof. destruct text; discriminate. Qed.

(** The loop on a stream that delivers [text] and a newline, when the
    assembly of [text] is complete. *)
Lemma read_fields_one_line
  (SplitForRead : string -> bool -> list span)
  (arg : read_args) (names : list string) (w : world)
  (text : string) (fd' : list event) (jn' : bool) (ps' : list string) :
  arg_d arg = None ->
  reads (stdin_fd w) (text +:+ chr NL) fd' -> free_of NL text = true ->
  _AppendParts text (SplitForRead text (negb (arg_r arg)))
    (get_max_results arg names) false [] = Ok (true, jn', ps') ->
  read_fields SplitForRead arg names w = Some (Ok (0%Z, ps'), set_stdin fd' w).
Proof.
  intros Hd Hr Hn Ha. unfold read_fields, bind, get_world, get_delim_char.
  rewrite Hd.
  assert (Hl : ReadLineFromStdin None w = Some (Ok (text +:+ chr NL), set_stdin fd' w)).
  { apply ReadLine_stops_at_newline; auto. discriminate. }
  destruct (stripped_snoc text) as [Hs Hst].
  rewrite (read_lines_step SplitForRead _ _ _ None false [] w _ _ true jn' ps' Hl).
  - now rewrite Hst.
  - apply snoc_nonempty.
  - now rewrite Hs.
Qed.






(** X10: the array destination.  With [-a NAME] (a non-empty name) and no
    [-n] and [-d], on a stream that delivers a line [text] and its newline,
    when the classifier finds no escapes in [text], [Read.Run] returns
    status 0 and binds [NAME] to the array of all the words of the line,
    however many; the names given as arguments are not assigned. *)
Theorem Run_array_all_words
  (SplitForRead : string -> bool -> list span)
  (arg : read_args) (argv : list string) (w : world)
  (a text : string) (fd' : list event) :
  arg_n arg = None -> arg_a arg = Some a -> a <> EmptyString -> arg_d arg = None ->
  reads (stdin_fd w) (text +:+ chr NL) fd' -> free_of NL text = true ->
  escape_free (SplitForRead text (negb (arg_r arg))) = true ->
  Run SplitForRead arg argv w
    = Some (Ok 0%Z,
            set_mem (<[a := MaybeStrArray
                             (black_texts text 0 (SplitForRead text (negb (arg_r arg))))]>
                       (mem w))
              (set_stdin fd' w)).
Proof.
  intros Hn Ha Hne Hd Hr Hf Hef.
  assert (Ht : truthy (arg_a arg) = true).
  { rewrite Ha. cbn [truthy]. apply negb_true_iff. now apply String.eqb_neq. }
  apply (Run_array SplitForRead arg argv w 0%Z
           (black_texts text 0 (SplitForRead text (negb (arg_r arg))))
           (set_stdin fd' w) a Hn Ha Ht).
  apply (read_fields_one_line SplitForRead arg (default_names argv) w text fd'
           false _ Hd Hr Hf).
  unfold get_max_results. rewrite Ht. unfold _AppendParts.
  destruct (for_spans_unbounded text (SplitForRead text (negb (arg_r arg)))
              (LoopState 0 false false []) Hef eq_refl) as (b & ->).
  rewrite (escape_free_done _ Hef). reflexivity.
Qed.

Lemma Run_array_all_words_witness :
  Run (split_model ifs_default) (ReadArgs false None (Some "arr") None) ["ignored"]
    (pipe [Data ("p q r" +:+ chr NL)])
  = Some (Ok 0%Z,
          set_mem (<["arr" := MaybeStrArray
                       (black_texts "p q r" 0 (split_model ifs_default "p q r" (negb false)))]>
                     ∅)
            (set_stdin [] (pipe [Data ("p q r" +:+ chr NL)]))).
Proof.
  apply (Run_array_all_words (split_model ifs_default)
           (ReadArgs false None (Some "arr") None) ["ignored"]
           (pipe [Data ("p q r" +:+ chr NL)]) "arr" "p q r" []); try reflexivity.
  - discriminate.
  - repeat constructor.
Defined.

(** ** The [history] builtin *)










(** The two lines that [history 2] writes for three entries. *)
Example History_last_two :
  entry_lines (last_entries 2 ["ls"; "cd /tmp"; "pwd"])
  = "    2  cd /tmp" +:+ chr NL +:+ "    3  pwd" +:+ chr NL.
Proof. reflexivity. Qed.

(** X12: [history -d k] with [k] not zero and without [-c].  When [k] is the
    number of an entry, counted from 1, [History.Run] removes that entry and
    no other, writes nothing and returns 0; for any other [k], negative ones
    included, it raises [UsageError] naming [k] and leaves the history as it
    is.  Arguments after the flags are not looked at. *)
Theorem History_delete_entry
  (py_int : string -> option Z) (py_repr : string -> string)
  (c_flag : bool) (k : Z) (rest : list string) (h : list string) (out : string) :
  c_flag = false -> k <> 0%Z ->
  (forall before item after,
     h = before ++ item :: after -> k = (Z.of_nat (length before) + 1)%Z ->
     History.Run py_int py_repr true (History.HistoryArgs c_flag (Some k)) rest
       (History.State h out)
     = (History.Return 0%Z, History.State (before ++ after) out)) /\
  ((k < 1 \/ Z.of_nat (length h) < k)%Z ->
     History.Run py_int py_repr true (History.HistoryArgs c_flag (Some k)) rest
       (History.State h out)
     = (History.Raise (History.UsageError ("couldn't find item " +:+ History.fmt_d k)),
        History.State h out)).
Proof.
  intros -> Hk.
  assert (Ht : (k =? 0)%Z = false) by now apply Z.eqb_neq.
  split.
  - intros before item after -> ->. unfold History.Run.
    cbn [negb History.arg_c History.arg_d History.truthy_int History.history History.f].
    rewrite Ht. cbn [negb]. unfold History.remove_history_item.
    replace (Z.of_nat (length before) + 1 - 1)%Z with (Z.of_nat (length before)) by lia.
    assert (Hin : (0 <=? Z.of_nat (length before))%Z &&
                  (Z.of_nat (length before) <? Z.of_nat (length (before ++ item :: after)))%Z
                  = true).
    { apply andb_true_iff. split; [apply Z.leb_le; lia|].
      apply Z.ltb_lt. rewrite length_app. cbn [length]. lia. }
    rewrite Hin, Nat2Z.id, delete_middle. reflexivity.
  - intros Hout. unfold History.Run.
    cbn [negb History.arg_c History.arg_d History.truthy_int History.history History.f].
    rewrite Ht. cbn [negb]. unfold History.remove_history_item.
    assert (Hin : (0 <=? k - 1)%Z && (k - 1 <? Z.of_nat (length h))%Z = false).
    { apply andb_false_iff. destruct Hout; [left; apply Z.leb_gt | right; apply Z.ltb_ge]; lia. }
    now rewrite Hin.
Qed.

Lemma History_delete_entry_witness :
  History.Run (fun _ => None) (fun s => s) true
    (History.HistoryArgs false (Some 2%Z)) []
    (History.State ["ls"; "cd /tmp"; "pwd"] EmptyString)
  = (History.Return 0%Z, History.State (["ls"] ++ ["pwd"]) EmptyString).
Proof.
  exact (proj1 (History_delete_entry (fun _ => None) (fun s => s) false 2%Z []
                  ["ls"; "cd /tmp"; "pwd"] EmptyString eq_refl ltac:(discriminate))
           ["ls"] "cd /tmp" ["pwd"] eq_refl eq_refl).
Defined.

(** ** The [help] builtin *)

Section HelpIndex.

Variable loader : string -> option string.
Variable GROUPS : list string.
Variable NO_SPID : Z.

Lemma print_groups_loaded ok cs :
  Forall2 (fun g c => loader ("_devbuild/help/_" +:+ g) = Some c) ok cs ->
  forall rest st,
    Help.print_groups loader (ok ++ rest) st
    = Help.print_groups loader rest
        (Help.State (Help.stdout st +:+ printed_groups cs) (Help.errors st)).
Proof.
  induction 1 as [|g c ok cs Hg Hf IH]; intros rest st.
  - unfold printed_groups. cbn [map join fold_right app].
    rewrite str_app_nil_r. now destruct st.
  - cbn [app Help.print_groups]. rewrite Hg, IH. unfold Help.print.
    cbn [Help.stdout Help.errors]. unfold printed_groups.
    cbn [map join fold_right]. now rewrite !str_app_assoc.
Qed.

End HelpIndex.

(** X13: [help index GROUP...].  [Help.Run] prints the groups in the order
    given, all groups when none is given.  When every group loads it returns
    0 and reports no error.  At the first group that does not load it
    returns 1 with one error that names that group; the groups before it
    have been printed by then, and the groups after it are not looked at. *)
Theorem Help_index_groups
  (loader : string -> option string) (GROUPS : list string) (NO_SPID : Z)
  (gs : list string) (spids : list Z) (st : Help.state)
  (ok cs : list string) :
  2 <= length spids ->
  Forall2 (fun g c => loader ("_devbuild/help/_" +:+ g) = Some c) ok cs ->
  (index_groups GROUPS gs = ok ->
     Help.Run loader GROUPS NO_SPID ("help" :: "index" :: gs) spids st
     = (0%Z, Help.State (Help.stdout st +:+ printed_groups cs) (Help.errors st))) /\
  (forall g rest,
     index_groups GROUPS gs = ok ++ g :: rest ->
     loader ("_devbuild/help/_" +:+ g) = None ->
     Help.Run loader GROUPS NO_SPID ("help" :: "index" :: gs) spids st
     = (1%Z,
        Help.State (Help.stdout st +:+ printed_groups cs)
          (Help.errors st ++
           [Help.ErrorMessage "Invalid help index group: %r" g None]))).
Proof.
  intros Hs Hok.
  assert (Hrun : Help.Run loader GROUPS NO_SPID ("help" :: "index" :: gs) spids st
                 = Help.print_groups loader (index_groups GROUPS gs) st).
  { unfold Help.Run. destruct spids as [|s0 [|s1 spids]]; cbn [length] in Hs; try lia.
    reflexivity. }
  rewrite Hrun. split.
  - intros ->. rewrite <- (app_nil_r ok), (print_groups_loaded loader ok cs Hok).
    reflexivity.
  - intros g rest -> Hg. rewrite (print_groups_loaded loader ok cs Hok).
    cbn [Help.print_groups]. rewrite Hg. reflexivity.
Qed.

Lemma Help_index_groups_witness :
  Help.Run (fun p => if String.eqb p "_devbuild/help/_a" then Some "A" else None)
    ["a"; "b"] (-1)%Z ("help" :: "index" :: ["a"; "zz"; "a"]) [7%Z; 8%Z; 9%Z]
    (Help.State EmptyString [])
  = (1%Z,
     Help.State (EmptyString +:+ printed_groups ["A"])
       ([] ++ [Help.ErrorMessage "Invalid help index group: %r" "zz" None])).
Proof.
  apply (proj2 (Help_index_groups
                  (fun p => if String.eqb p "_devbuild/help/_a" then Some "A" else None)
                  ["a"; "b"] (-1)%Z ["a"; "zz"; "a"] [7%Z; 8%Z; 9%Z]
                  (Help.State EmptyString []) ["a"] ["A"]
                  ltac:(cbn; lia) ltac:(repeat constructor)) "zz" ["a"]).
  - reflexivity.
  - reflexivity.
Defined.
